(** * codeface-extraction: artifact occurrences in mbox archives

    A shallow embedding of [mbox_parsing/mbox_parsing.py] and of
    [csv_writer/csv_writer.py], with the properties of the specification
    stated and settled against it.

    Conventions of the embedding.
    - A Python [str] is a Rocq [string] holding its UTF-8 encoding; a Python
      [bytes] object is a Rocq [string] holding the bytes.
    - Functions that can raise return an [Outcome]; functions that touch the
      file system thread a [World] through the state-and-exception monad [M].
    - The on-disk world is made of stdpp finite maps keyed by path.  Paths
      are compared as strings: [.], [..] and doubled separators are not
      resolved.
    - The parts of whoosh that compile and run a query are parameters of the
      section [Engine]; nothing is assumed about them. *)

From Stdlib Require Import ZArith NArith Ascii String DecimalString.
From stdpp Require Import base option list gmap strings.

Local Open Scope Z_scope.

(** ** Exceptions and outcomes *)

Inductive Exn : Type :=
  | TypeError
  | ValueError
  | FileExistsError
  | KeyError
  | FileNotFoundError
  | EmptyIndexError.

Inductive Outcome (A : Type) : Type :=
  | Ok (a : A)
  | Raise (e : Exn).
Arguments Ok {A} a.
Arguments Raise {A} e.

#[global] Instance Outcome_ret : MRet Outcome := fun _ a => Ok a.
#[global] Instance Outcome_bind : MBind Outcome := fun _ _ f m =>
  match m with
  | Ok a => f a
  | Raise e => Raise e
  end.

(** ** Python strings *)

Module Py.

Definition ascii_code (c : ascii) : N := N_of_ascii c.

Definition slash : ascii := "/"%char.

(** [c.lower()] on the ASCII range. *)
Definition lower_char (c : ascii) : ascii :=
  let n := ascii_code c in
  if ((65 <=? n) && (n <=? 90))%N then ascii_of_N (n + 32) else c.

(** [s.lower()]; content types are ASCII. *)
Fixpoint lower (s : string) : string :=
  match s with
  | EmptyString => EmptyString
  | String c s' => String (lower_char c) (lower s')
  end.

(** [s.startswith(p)] *)
Fixpoint startswith (s p : string) : bool :=
  match p, s with
  | EmptyString, _ => true
  | String _ _, EmptyString => false
  | String a p', String b s' => if decide (a = b) then startswith s' p' else false
  end.

(** [needle in s] *)
Fixpoint contains (needle s : string) : bool :=
  startswith s needle ||
  match s with
  | EmptyString => false
  | String _ s' => contains needle s'
  end.

(** [s.endswith("/")] *)
Fixpoint ends_with_sep (s : string) : bool :=
  match s with
  | EmptyString => false
  | String c EmptyString => bool_decide (c = slash)
  | String _ s' => ends_with_sep s'
  end.

Fixpoint has_sep (s : string) : bool :=
  match s with
  | EmptyString => false
  | String c s' => bool_decide (c = slash) || has_sep s'
  end.

(** [s.rstrip("/")] *)
Fixpoint rstrip_sep (s : string) : string :=
  match s with
  | EmptyString => EmptyString
  | String c s' =>
    match rstrip_sep s' with
    | EmptyString => if bool_decide (c = slash) then EmptyString else String c EmptyString
    | stripped => String c stripped
    end
  end.

(** [str(None)] and ["%s" % v]: a missing value prints as [None]. *)
Definition str_of (v : option string) : string :=
  match v with
  | Some s => s
  | None => "None"
  end.

(** *** [str(b, errors="replace")] on bytes

    The default encoding is UTF-8.  Well-formed sequences are kept; every
    maximal ill-formed prefix of a sequence becomes U+FFFD (whose UTF-8
    encoding is EF BF BD). *)

Definition replacement : string :=
  String (ascii_of_N 239) (String (ascii_of_N 191) (String (ascii_of_N 189) EmptyString)).

Definition in_range (lo hi : N) (c : ascii) : bool :=
  let n := ascii_code c in ((lo <=? n) && (n <=? hi))%N.

(** Bounds of the second byte, by lead byte (Unicode table 3-7). *)
Definition second_lo (lead : N) : N :=
  if (lead =? 224)%N then 160 else if (lead =? 240)%N then 144 else 128.
Definition second_hi (lead : N) : N :=
  if (lead =? 237)%N then 159 else if (lead =? 244)%N then 143 else 191.

Fixpoint decode_replace (b : string) : string :=
  match b with
  | EmptyString => EmptyString
  | String c0 r0 =>
    let n0 := ascii_code c0 in
    if (n0 <? 128)%N then String c0 (decode_replace r0)
    else if in_range 194 223 c0 then
      match r0 with
      | String c1 r1 =>
        if in_range 128 191 c1 then String c0 (String c1 (decode_replace r1))
        else replacement +:+ decode_replace r0
      | EmptyString => replacement
      end
    else if in_range 224 239 c0 then
      match r0 with
      | String c1 r1 =>
        if in_range (second_lo n0) (second_hi n0) c1 then
          match r1 with
          | String c2 r2 =>
            if in_range 128 191 c2
            then String c0 (String c1 (String c2 (decode_replace r2)))
            else replacement +:+ decode_replace r1
          | EmptyString => replacement
          end
        else replacement +:+ decode_replace r0
      | EmptyString => replacement
      end
    else if in_range 240 244 c0 then
      match r0 with
      | String c1 r1 =>
        if in_range (second_lo n0) (second_hi n0) c1 then
          match r1 with
          | String c2 r2 =>
            if in_range 128 191 c2 then
              match r2 with
              | String c3 r3 =>
                if in_range 128 191 c3
                then String c0 (String c1 (String c2 (String c3 (decode_replace r3))))
                else replacement +:+ decode_replace r2
              | EmptyString => replacement
              end
            else replacement +:+ decode_replace r1
          | EmptyString => replacement
          end
        else replacement +:+ decode_replace r0
      | EmptyString => replacement
      end
    else replacement +:+ decode_replace r0
  end.

(** The values [body] can hold in [__mbox_getbody]. *)
Inductive value : Type :=
  | VNone
  | VBytes (b : string)
  | VStr (s : string).

(** [str(v, errors="replace")]: decoding is defined on bytes only; a [str]
    or [None] argument is a [TypeError]. *)
Definition str_replace (v : value) : Outcome string :=
  match v with
  | VBytes b => Ok (decode_replace b)
  | VStr _ => Raise TypeError
  | VNone => Raise TypeError
  end.

End Py.

(** ** [os.path] *)

Module OsPath.

(** [os.path.basename(p)]: what follows the last separator. *)
Fixpoint basename (p : string) : string :=
  match p with
  | EmptyString => EmptyString
  | String c p' =>
    if Py.has_sep p' then basename p'
    else if bool_decide (c = Py.slash) then p'
    else String c p'
  end.

(** [p[:p.rfind("/") + 1]]: what precedes the base name, separators
    included. *)
Fixpoint head_with_sep (p : string) : string :=
  match p with
  | EmptyString => EmptyString
  | String c p' =>
    if Py.has_sep p' then String c (head_with_sep p')
    else if bool_decide (c = Py.slash) then String c EmptyString
    else EmptyString
  end.

(** [os.path.dirname(p)], the head of [os.path.split(p)]: the separators
    that end it are stripped, unless it is made of separators only. *)
Definition dirname (p : string) : string :=
  let head := head_with_sep p in
  match Py.rstrip_sep head with
  | EmptyString => head
  | stripped => stripped
  end.

(** The directories [os.makedirs(name)] has to find or make before [name]
    itself, outermost first.  As in [os.makedirs], the head of
    [os.path.split] is taken (a second time when the tail is empty), and
    again on that head, as long as head and tail are both non-empty; the
    root is there on every disk and ends the recursion. *)
Fixpoint makedirs_heads (fuel : nat) (name : string) : list string :=
  match fuel with
  | O => []
  | S fuel' =>
    let head := dirname name in
    let tail := basename name in
    let head' := if bool_decide (tail = EmptyString) then dirname head else head in
    let tail' := if bool_decide (tail = EmptyString) then basename head else tail in
    if bool_decide (Py.rstrip_sep head' ≠ EmptyString) && bool_decide (tail' ≠ EmptyString)
    then makedirs_heads fuel' head' ++ [head']
    else []
  end.

(** The recursion is on a shorter path each time, so the length of the
    path is fuel enough. *)
Definition parents (name : string) : list string :=
  makedirs_heads (String.length name) name.
Arguments parents : simpl never.

(** One step of [os.path.join]. *)
Definition join2 (path b : string) : string :=
  if Py.startswith b "/" then b
  else if bool_decide (path = EmptyString) || Py.ends_with_sep path then path +:+ b
  else path +:+ "/" +:+ b.

(** [os.path.join(a, *p)] *)
Definition join (a : string) (p : list string) : string :=
  foldl join2 a p.

End OsPath.

(** ** E-mail messages ([email.message.Message] as [mailbox] delivers it)

    A message carries its headers, the value [get_content_type()] reports
    for it, and either a payload ([Single], the bytes
    [get_payload(decode=True)] yields) or a list of sub-messages
    ([Multi]). *)

#[warnings="-register-all"] Inductive Message : Type :=
  | Single (headers : list (string * string)) (content_type : string) (payload : string)
  | Multi (headers : list (string * string)) (content_type : string) (parts : list Message).

Module Email.

Definition is_multipart (m : Message) : bool :=
  match m with
  | Single _ _ _ => false
  | Multi _ _ _ => true
  end.

Definition get_content_type (m : Message) : string :=
  match m with
  | Single _ c _ => c
  | Multi _ c _ => c
  end.

Definition headers (m : Message) : list (string * string) :=
  match m with
  | Single h _ _ => h
  | Multi h _ _ => h
  end.

(** [m.get_payload(decode=True)]: [None] on a multipart message. *)
Definition get_payload_decode (m : Message) : Py.value :=
  match m with
  | Single _ _ b => Py.VBytes b
  | Multi _ _ _ => Py.VNone
  end.

(** [m.walk()]: the message, then the walk of each sub-message in order. *)
Fixpoint walk (m : Message) : list Message :=
  m :: match m with
       | Single _ _ _ => []
       | Multi _ _ ps => flat_map walk ps
       end.

(** [m[name]]: the first header of that name, names compared without
    case; [None] when there is none. *)
Fixpoint lookup_header (name : string) (hs : list (string * string)) : option string :=
  match hs with
  | [] => None
  | (k, v) :: hs' =>
    if decide (Py.lower k = Py.lower name) then Some v else lookup_header name hs'
  end.

Definition getitem (m : Message) (name : string) : option string :=
  lookup_header name (headers m).

End Email.

(** Induction on messages, with the hypothesis available for every part. *)
Section MessageInduction.
Variable P : Message → Prop.
Hypothesis P_single : ∀ h c b, P (Single h c b).
Hypothesis P_multi : ∀ h c ps, Forall P ps → P (Multi h c ps).

Fixpoint Message_parts_ind (m : Message) : P m :=
  match m with
  | Single h c b => P_single h c b
  | Multi h c ps =>
    P_multi h c ps
      ((fix all (l : list Message) : Forall P l :=
          match l with
          | [] => Forall_nil_2 P
          | x :: l' => Forall_cons_2 P x l' (Message_parts_ind x) (all l')
          end) ps)
  end.
End MessageInduction.

(** ** [__mbox_getbody] *)

Definition __text_indicator : string := "text/".

(** [__text_indicator in part.get_content_type().lower()] *)
Definition is_text (part : Message) : bool :=
  Py.contains __text_indicator (Py.lower (Email.get_content_type part)).

(** The assignment guarded by the test, as both loops perform it. *)
Definition take_text (body : Py.value) (part : Message) : Py.value :=
  if is_text part then Email.get_payload_decode part else body.

(** One round of the outer loop over [message.walk()]. *)
Definition getbody_part (body : Py.value) (part : Message) : Py.value :=
  if Email.is_multipart part then foldl take_text body (Email.walk part)
  else take_text body part.

(** The value of [body] when the search for a textual part is over. *)
Definition getbody_search (message : Message) : Py.value :=
  let body := Py.VNone in
  if Email.is_multipart message then foldl getbody_part body (Email.walk message)
  else take_text body message.

Definition __mbox_getbody (message : Message) : Outcome string :=
  let body := getbody_search message in
  let body :=
    match body with
    | Py.VNone => Py.VStr " "
    | _ => body
    end in
  Py.str_replace body.

(** The last textual part of a sequence of parts. *)
Fixpoint last_text (l : list Message) : option Message :=
  match l with
  | [] => None
  | p :: l' =>
    match last_text l' with
    | Some q => Some q
    | None => if is_text p then Some p else None
    end
  end.

(** The reading of the specification: the first part, in the order of the
    walk, whose content type begins with [text/]. *)
Definition first_text_part (message : Message) : option Message :=
  List.find (λ p, Py.startswith (Email.get_content_type p) __text_indicator)
            (Email.walk message).

Definition returns_first_text_part (message : Message) : Prop :=
  ∀ p, first_text_part message = Some p →
       ∃ b, Email.get_payload_decode p = Py.VBytes b ∧
            __mbox_getbody message = Ok (Py.decode_replace b).

(** Sample messages. *)
Definition image_only : Message :=
  Single [("Message-ID", "<1@example.org>")] "image/png" "PNGDATA".

Definition two_text_parts : Message :=
  Multi [("Message-ID", "<2@example.org>")] "multipart/alternative"
        [ Single [] "text/plain" "plain body";
          Single [] "text/html" "<p>html body</p>" ].

(** ** The search index and the world on disk *)

Record Document : Type := mkDocument {
  messageID : string;   (* ID(stored=True) *)
  content : string      (* TEXT(analyzer=...) *)
}.

Inductive FieldType : Type :=
  | ID_stored
  | TEXT_analyzed (expression : string).

Definition Schema : Type := list (string * FieldType).

(** A directory that holds a valid index: its schema and the documents of
    the last commit. *)
Record IndexData : Type := mkIndexData {
  ix_schema : Schema;
  ix_docs : list Document
}.

(** What the run asks of the disk, of whoosh and of joblib, in order. *)
Inductive Event : Type :=
  | Rmtree (path : string)
  | Makedirs (path : string)
  | CreateIn (path : string) (schema : Schema)
  | OpenDir (path : string)
  | AddDocument (doc : Document)
  | Commit (path : string)
  | WriteCsv (path : string) (append : bool) (rows : nat)
  | CreateMbox (path : string)
  | Parallel (n_jobs : Z).

(** [dirs]: the directories; [None] is a directory without a valid index.
    [files]: the tables, as the rows of fields the [csv] module reads and
    writes.  [mboxes]: the archives.  A path names one thing: a directory,
    a table or an archive.  [cpu_count]: what [multiprocessing.cpu_count()]
    reports. *)
Record World : Type := mkWorld {
  dirs : gmap string (option IndexData);
  files : gmap string (list (list string));
  mboxes : gmap string (list Message);
  cpu_count : Z;
  trace : list Event
}.

Definition set_dirs (f : gmap string (option IndexData) → gmap string (option IndexData))
    (w : World) : World :=
  mkWorld (f (dirs w)) (files w) (mboxes w) (cpu_count w) (trace w).

Definition set_files (f : gmap string (list (list string)) → gmap string (list (list string)))
    (w : World) : World :=
  mkWorld (dirs w) (f (files w)) (mboxes w) (cpu_count w) (trace w).

Definition set_mboxes (f : gmap string (list Message) → gmap string (list Message))
    (w : World) : World :=
  mkWorld (dirs w) (files w) (f (mboxes w)) (cpu_count w) (trace w).

Definition record_event (e : Event) (w : World) : World :=
  mkWorld (dirs w) (files w) (mboxes w) (cpu_count w) (trace w ++ [e]).

(** ** The monad: a world threaded through, exceptions cutting short *)

Definition M (A : Type) : Type := World → Outcome A * World.

#[global] Instance M_ret : MRet M := λ _ a w, (Ok a, w).
#[global] Instance M_bind : MBind M := λ _ _ f m w,
  match m w with
  | (Ok a, w') => f a w'
  | (Raise e, w') => (Raise e, w')
  end.

Definition lift {A : Type} (o : Outcome A) : M A := λ w, (o, w).
Definition raise {A : Type} (e : Exn) : M A := λ w, (Raise e, w).
Definition gets {A : Type} (f : World → A) : M A := λ w, (Ok (f w), w).
Definition modify (f : World → World) : M unit := λ w, (Ok tt, f w).

(** ** File system and whoosh storage *)

Definition os_path_exists (path : string) : M bool :=
  gets (λ w, match dirs w !! path with
             | Some _ => true
             | None => false
             end).

(** Whether [p] lies below the directory [path]. *)
Definition is_below (path p : string) : bool :=
  Py.startswith p (if Py.ends_with_sep path then path else path +:+ "/").

(** [p] is the directory [path] or lies below it. *)
Definition in_tree (path p : string) : Prop :=
  p = path ∨ is_below path p = true.

#[global] Instance in_tree_dec (path p : string) : Decision (in_tree path p).
Proof. unfold in_tree. apply _. Defined.

(** A map of the disk without [path] and without what lies below it. *)
Definition remove_tree {V : Type} (path : string) (m : gmap string V) : gmap string V :=
  filter (λ entry, ¬ in_tree path entry.1) m.
Arguments remove_tree : simpl never.

(** The world without the directory [path] and all it holds: directories,
    tables and archives. *)
Definition rmtree_world (path : string) (w : World) : World :=
  mkWorld (remove_tree path (dirs w)) (remove_tree path (files w))
          (remove_tree path (mboxes w)) (cpu_count w) (trace w).

(** [shutil.rmtree(path)]: the directory goes with everything below it. *)
Definition shutil_rmtree (path : string) : M unit :=
  b ← os_path_exists path;
  if b : bool then modify (λ w, record_event (Rmtree path) (rmtree_world path w))
  else raise FileNotFoundError.

(** The directories with those of [heads] that are missing made, empty;
    those that are there stay as they are. *)
Definition make_missing (heads : list string) (d : gmap string (option IndexData))
    : gmap string (option IndexData) :=
  foldr (λ head d', match d' !! head with
                    | Some _ => d'
                    | None => <[head := None]> d'
                    end) d heads.
Arguments make_missing : simpl never.

(** [os.makedirs(path)] without [exist_ok]: an existing path is an error;
    otherwise the path is made, and before it every directory above it
    that is missing.  ([os.makedirs] looks at the directories above first
    and raises on the path last; on a disk, where a directory that exists
    has all the directories above it, nothing is made in that case.) *)
Definition os_makedirs (path : string) : M unit :=
  b ← os_path_exists path;
  if b : bool then raise FileExistsError
  else modify (λ w, record_event (Makedirs path)
                      (set_dirs (λ d, <[path := None]> (make_missing (OsPath.parents path) d)) w)).

Definition index_exists_in (path : string) : M bool :=
  gets (λ w, match dirs w !! path with
             | Some (Some _) => true
             | _ => false
             end).

Definition index_create_in (path : string) (schema : Schema) : M unit :=
  b ← os_path_exists path;
  if b : bool
  then modify (λ w, record_event (CreateIn path schema)
                      (set_dirs (insert path (Some (mkIndexData schema []))) w))
  else raise FileNotFoundError.

(** An opened index is known by its directory. *)
Definition index_open_dir (path : string) : M string :=
  b ← index_exists_in path;
  if b : bool then (modify (record_event (OpenDir path));; mret path)
  else raise EmptyIndexError.

(** [writer.commit()]: the buffered documents join the index. *)
Definition writer_commit (ix : string) (buffer : list Document) : M unit :=
  modify (λ w, record_event (Commit ix)
    (set_dirs (λ d, match d !! ix with
                    | Some (Some data) =>
                      <[ix := Some (mkIndexData (ix_schema data) (ix_docs data ++ buffer))]> d
                    | _ => d
                    end) w)).

(** [my_index.searcher()]: a reader on the committed documents. *)
Definition index_searcher (ix : string) : M (list Document) :=
  d ← gets (λ w, dirs w !! ix);
  match d with
  | Some (Some data) => mret (ix_docs data)
  | _ => raise EmptyIndexError
  end.

(** ** [__get_index] *)

(** The arguments of [writer.add_document] for one message. *)
Definition index_document (message : Message) : Outcome Document :=
  let message_id := Py.str_of (Email.getitem message "message-id") in
  body ← __mbox_getbody message;
  mret (mkDocument message_id body).

(** The loop over the archive; [buffer] is what the writer holds. *)
Fixpoint add_documents (mbox : list Message) (buffer : list Document) : M (list Document) :=
  match mbox with
  | [] => mret buffer
  | message :: rest =>
    doc ← lift (index_document message);
    modify (record_event (AddDocument doc));;
    add_documents rest (buffer ++ [doc])
  end.

Definition index_path_of (results_folder mbox_path : string) : string :=
  OsPath.join results_folder ["mbox-index"; OsPath.basename mbox_path].

Definition __get_index (mbox : list Message) (mbox_path results_folder : string)
    (schema : Schema) (reindex : bool) : M string :=
  let index_path := index_path_of results_folder mbox_path in
  there ← os_path_exists index_path;
  (if there && reindex then shutil_rmtree index_path else mret tt);;
  there ← os_path_exists index_path;
  valid ← (if negb there then mret false else index_exists_in index_path);
  if negb there || negb valid then
    os_makedirs index_path;;
    index_create_in index_path schema;;
    ix ← index_open_dir index_path;
    buffer ← add_documents mbox [];
    writer_commit ix buffer;;
    mret ix
  else
    index_open_dir index_path.

(** ** [__get_artifacts] *)

Definition commit_data_columns : list string :=
  [ "commit.id";
    "date"; "author.name"; "author.email";
    "committer.date"; "committer.name"; "committer.email";
    "hash"; "changed.files"; "added.lines"; "deleted.lines"; "diff.size";
    "file"; "artifact"; "artifact.type"; "artifact.diff.size" ].

(** A (file, artifact) key; a component is [None] when the row was too
    short to hold it. *)
Definition Key : Type := option string * option string.

(** The dictionary [csv.DictReader] makes of one row: the field names
    paired with the fields, missing fields being [None]. *)
Definition dict_row (fieldnames : list string) (row : list string)
    : list (string * option string) :=
  zip fieldnames
      ((Some <$> row) ++ replicate (length fieldnames - length row)%nat None).

(** [d[key]] *)
Fixpoint dict_getitem (d : list (string * option string)) (key : string)
    : Outcome (option string) :=
  match d with
  | [] => Raise KeyError
  | (k, v) :: d' => if decide (k = key) then Ok v else dict_getitem d' key
  end.

(** [os.path.basename] refuses [None]. *)
Definition basename_of (v : option string) : Outcome string :=
  match v with
  | Some p => Ok (OsPath.basename p)
  | None => Raise TypeError
  end.

(** The tuple added to [commit_set] for one row. *)
Definition artifact_key (files_as_artifacts : bool) (row : list (string * option string))
    : Outcome Key :=
  if files_as_artifacts then
    file ← dict_getitem row "file";
    base ← basename_of file;
    mret (file, Some base)
  else
    file ← dict_getitem row "file";
    artifact ← dict_getitem row "artifact";
    mret (file, artifact).

(** The loop over the rows; the reader skips empty rows. *)
Fixpoint collect_artifacts (files_as_artifacts : bool) (rows : list (list string))
    (commit_set : gset Key) : Outcome (gset Key) :=
  match rows with
  | [] => Ok commit_set
  | [] :: rest => collect_artifacts files_as_artifacts rest commit_set
  | row :: rest =>
    key ← artifact_key files_as_artifacts (dict_row commit_data_columns row);
    collect_artifacts files_as_artifacts rest (commit_set ∪ {[ key ]})
  end.

Definition __get_artifacts (results_folder : string) (files_as_artifacts : bool)
    : M (gset Key) :=
  table ← gets (λ w, files w !! OsPath.join results_folder ["commits.list"]);
  match table with
  | None => raise FileNotFoundError
  | Some rows => lift (collect_artifacts files_as_artifacts rows ∅)
  end.

(** The (file, artifact) pairs present in a table, row by row. *)
Definition table_pair (row : list string) : Key :=
  (row !! 12%nat, row !! 13%nat).

Definition table_pairs (rows : list (list string)) : list Key :=
  table_pair <$> filter (λ row, row ≠ []) rows.

(** ** [csv_writer.write_to_csv] *)

(** A line handed to the writer: a tuple of columns, each a string or
    [None]. *)
Definition Line : Type := list (option string).

(** [wr.writerow(line)]: [None] is written as the empty field. *)
Definition writerow (line : Line) : list string :=
  default "" <$> line.

Definition write_to_csv (file_path : string) (lines : list Line) (append : bool) : M unit :=
  modify (λ w,
    let before := if append then default [] (files w !! file_path) else [] in
    record_event (WriteCsv file_path append (length lines))
      (set_files (insert file_path (before ++ (writerow <$> lines))) w)).

(** ** The query engine and [parse] *)

Definition dquote : string := String (ascii_of_N 34) EmptyString.

(** [StandardAnalyzer(expression=...)]: split by whitespace, commas, colons
    and quotation marks. *)
Definition analyzer_expression : string := "[^\s,:\" +:+ dquote +:+ "']+".

Definition parse_schema : Schema :=
  [ ("messageID", ID_stored); ("content", TEXT_analyzed analyzer_expression) ].

Definition header : Line := [Some "file"; Some "artifact"; Some "messageID"].

(** The text handed to the query parser. *)
Definition query_text (artifact : Key) (include_filepath : bool) : string :=
  if include_filepath then
    dquote +:+ Py.str_of artifact.1 +:+ dquote +:+ " AND " +:+
    dquote +:+ Py.str_of artifact.2 +:+ dquote
  else
    dquote +:+ Py.str_of artifact.2 +:+ dquote.

Definition result_tuple (artifact : Key) (r : Document) : Line :=
  [artifact.1; artifact.2; Some (messageID r)].

(** The number of workers asked of [joblib.Parallel]. *)
Definition parse_n_jobs (num_cores : Z) : Z := num_cores - 1.

Definition output_filename (files_as_artifacts include_filepath : bool) : string :=
  let filename := "mboxparsing" in
  let filename := if files_as_artifacts then filename +:+ "_file" else filename in
  if include_filepath then filename +:+ "_filepath.list" else filename +:+ ".list".

(** [mailbox.mbox(name)], with its default [create=True]: the messages of
    the archive; a missing file is created, and is an empty archive. *)
Definition mailbox_mbox (mbox_name : string) : M (list Message) :=
  archive ← gets (λ w, mboxes w !! mbox_name);
  match archive with
  | Some messages => mret messages
  | None =>
    modify (λ w, record_event (CreateMbox mbox_name) (set_mboxes (insert mbox_name []) w));;
    mret []
  end.

Section Engine.

(** whoosh's query parser and searcher. *)
Variable Query : Type.
Variable query_parser_parse : Schema → string → Query.
Variable searcher_search : list Document → Query → list Document.

Definition __parse_execute (artifact : Key) (schema : Schema) (my_index : string)
    (include_filepath : bool) : M (list Line) :=
  docs ← index_searcher my_index;
  let my_query := query_parser_parse schema (query_text artifact include_filepath) in
  let query_result := searcher_search docs my_query in
  mret (result_tuple artifact <$> query_result).

(** [Parallel(n_jobs=n)(delayed(f)(x) for x in xs)]: the pool is asked for
    [n] workers; joblib refuses [n_jobs = 0]; otherwise the results come
    back in the order of the tasks, and the first failure aborts the
    batch. *)
Fixpoint run_tasks {A B : Type} (f : A → M B) (xs : list A) : M (list B) :=
  match xs with
  | [] => mret []
  | x :: xs' => y ← f x; ys ← run_tasks f xs'; mret (y :: ys)
  end.

Definition joblib_Parallel {A B : Type} (n_jobs : Z) (f : A → M B) (xs : list A)
    : M (list B) :=
  modify (record_event (Parallel n_jobs));;
  if n_jobs =? 0 then raise ValueError else run_tasks f xs.

(** [parse] up to the end of the search: the hit lists, one per artifact. *)
Definition parse_search (mbox_name results_folder : string)
    (include_filepath files_as_artifacts reindex : bool) : M (list (list Line)) :=
  mbox ← mailbox_mbox mbox_name;
  let schema := parse_schema in
  ix ← __get_index mbox mbox_name results_folder schema reindex;
  artifacts ← __get_artifacts results_folder files_as_artifacts;
  num_cores ← gets cpu_count;
  joblib_Parallel (parse_n_jobs num_cores)
    (λ commit, __parse_execute commit schema ix include_filepath)
    (elements artifacts).

(** The lines to write: the header unless appending, then every hit. *)
Definition parse_result (append_result : bool) (csv_data : list (list Line)) : list Line :=
  (if negb append_result then [header] else []) ++ concat csv_data.

Definition parse (mbox_name results_folder : string)
    (include_filepath files_as_artifacts reindex append_result : bool) : M unit :=
  csv_data ← parse_search mbox_name results_folder include_filepath files_as_artifacts reindex;
  let result := parse_result append_result csv_data in
  let output_file :=
    OsPath.join results_folder [output_filename files_as_artifacts include_filepath] in
  write_to_csv output_file result append_result.

End Engine.

(** [parse] up to the call of the pool: the index and the artifacts. *)
Definition parse_setup (mbox_name results_folder : string)
    (files_as_artifacts reindex : bool) : M (string * gset Key) :=
  mbox ← mailbox_mbox mbox_name;
  ix ← __get_index mbox mbox_name results_folder parse_schema reindex;
  artifacts ← __get_artifacts results_folder files_as_artifacts;
  mret (ix, artifacts).

(** The key a pair of the table becomes, by mode. *)
Definition key_of_pair (files_as_artifacts : bool) (pair : Key) : Key :=
  if files_as_artifacts then (pair.1, OsPath.basename <$> pair.1) else pair.

(** A row the files-as-artifacts mode can process: empty, or long enough to
    hold the [file] column. *)
Definition has_file_column (row : list string) : Prop :=
  row = [] ∨ is_Some (row !! 12%nat).

(** The reading of "base name (last path segment)": [segment] ends
    [path], holds no separator, and what precedes it is empty or ends with
    a separator. *)
Definition is_last_segment (path segment : string) : Prop :=
  ∃ dir, path = dir +:+ segment ∧
         (dir = EmptyString ∨ Py.ends_with_sep dir = true) ∧
         Py.has_sep segment = false.

(** The documents of an archive, when every message yields one. *)
Fixpoint index_documents (mbox : list Message) : Outcome (list Document) :=
  match mbox with
  | [] => Ok []
  | message :: rest =>
    doc ← index_document message;
    docs ← index_documents rest;
    mret (doc :: docs)
  end.

(** A computation that leaves the tables, the archives and the machine as
    they are, whatever it does to the directories. *)
Definition keeps {A : Type} (m : M A) : Prop :=
  ∀ w, files (m w).2 = files w ∧
       mboxes (m w).2 = mboxes w ∧
       cpu_count (m w).2 = cpu_count w.

(** A computation that changes tables at paths of [in_files] only and
    archives at paths of [in_mboxes] only, and leaves the machine as it
    is. *)
Definition keeps_outside {A : Type} (in_files in_mboxes : string → Prop) (m : M A) : Prop :=
  ∀ w, (∀ p, ¬ in_files p → files (m w).2 !! p = files w !! p) ∧
       (∀ p, ¬ in_mboxes p → mboxes (m w).2 !! p = mboxes w !! p) ∧
       cpu_count (m w).2 = cpu_count w.

(** The world after [mailbox.mbox(mbox_name)]. *)
Definition mbox_opened (mbox_name : string) (w : World) : World :=
  match mboxes w !! mbox_name with
  | Some _ => w
  | None => record_event (CreateMbox mbox_name) (set_mboxes (insert mbox_name []) w)
  end.

(** The directories after the index at [path] was made and committed. *)
Definition built_dirs (path : string) (data : IndexData)
    (d : gmap string (option IndexData)) : gmap string (option IndexData) :=
  <[path := Some data]> (make_missing (OsPath.parents path) d).

(** The world with more events on its trace. *)
Definition add_trace (events : list Event) (w : World) : World :=
  mkWorld (dirs w) (files w) (mboxes w) (cpu_count w) (trace w ++ events).

(** The events of building the index at [path] from [docs]. *)
Definition build_events (path : string) (schema : Schema) (docs : list Document)
    : list Event :=
  [Makedirs path; CreateIn path schema; OpenDir path] ++
  (AddDocument <$> docs) ++ [Commit path].

(** The documents handed to [writer.add_document] between two states of
    the trace, in order. *)
Definition added_document (e : Event) : option Document :=
  match e with
  | AddDocument doc => Some doc
  | _ => None
  end.

Definition documents_added (before after : list Event) : list Document :=
  omap added_document (drop (length before) after).

(** The message identifiers of a list of result lines (their third
    column). *)
Definition hit_ids (lines : list Line) : list (option string) :=
  (λ line : Line, mjoin (line !! 2%nat)) <$> lines.

(** The inclusion between the two modes of a search, for a given engine:
    whatever the index and the artifact, every identifier found with the
    file path in the query is found without it. *)
Definition filepath_narrows (Query : Type) (query_parser_parse : Schema → string → Query)
    (searcher_search : list Document → Query → list Document) : Prop :=
  ∀ (artifact : Key) (schema : Schema) (my_index : string) (w : World)
    (with_path without_path : list Line),
    (__parse_execute Query query_parser_parse searcher_search
       artifact schema my_index true w).1 = Ok with_path →
    (__parse_execute Query query_parser_parse searcher_search
       artifact schema my_index false w).1 = Ok without_path →
    ∀ id, id ∈ hit_ids with_path → id ∈ hit_ids without_path.

(** ** Sample data *)

Definition commit_row (file artifact : string) : list string :=
  [ "1"; "2017-03-01"; "Ann"; "ann@example.org"; "2017-03-01"; "Ann"; "ann@example.org";
    "0a1b2c"; "1"; "2"; "0"; "2"; file; artifact; "Function"; "2" ].

Definition sample_commits : list (list string) :=
  [ commit_row "src/parser.c" "parse_expr";
    commit_row "src/parser.c" "parse_expr";
    [];
    commit_row "src/lexer.c" "next_token" ].

Definition message_a : Message :=
  Single [("Message-ID", "<a@example.org>")] "text/plain" "see parse_expr in src/parser.c".

Definition message_b : Message :=
  Single [("Subject", "no identifier")] "text/plain" "unrelated text".

Definition message_c : Message :=
  Single [("From", "carol@example.org")] "text/plain" "another one".

Definition sample_world : World :=
  mkWorld {[ "res" := None; "lists" := None ]}
          {[ "res/commits.list" := sample_commits ]}
          {[ "lists/dev.mbox" := [message_a; message_b; message_c] ]}
          4
          [].

(** The same machine with a single core. *)
Definition single_core_world : World :=
  mkWorld (dirs sample_world) (files sample_world) (mboxes sample_world) 1 [].

(** A results folder in which the index directory of [lists/dev.mbox] was
    left behind without an index in it. *)
Definition stale_world : World :=
  mkWorld {[ "res" := None; "lists" := None; "res/mbox-index" := None;
             "res/mbox-index/dev.mbox" := None ]}
          (files sample_world) (mboxes sample_world) 4 [].

(** A stand-in for whoosh, used to run the samples: a query is its text,
    and a document is a hit when its body contains the artifact name. *)
Definition sample_search (docs : list Document) (query : string) : list Document :=
  List.filter (λ d, Py.contains "parse_expr" (content d) && Py.contains "parse_expr" query) docs.

Definition sample_parse : string → string → bool → bool → bool → bool → M unit :=
  parse string (λ _ text, text) sample_search.

(** Two runs over the sample archive: the first creates the output table,
    the second appends to it. *)
Definition after_first_run : World :=
  (sample_parse "lists/dev.mbox" "res" false false false false sample_world).2.

Definition after_second_run : World :=
  (sample_parse "lists/dev.mbox" "res" false false false true after_first_run).2.

(** ** Further notions used by the properties *)

(** Bytes that are all ASCII. *)
Fixpoint is_ascii (b : string) : bool :=
  match b with
  | EmptyString => true
  | String c b' => (Py.ascii_code c <? 128)%N && is_ascii b'
  end.

(** A message with a textual part after an image. *)
Definition image_then_text : Message :=
  Multi [("Message-ID", "<3@example.org>")] "multipart/mixed"
        [ Single [] "image/png" "PNGDATA";
          Multi [] "multipart/alternative"
                [ Multi [] "multipart/related" [ Single [] "TEXT/Plain" "deep body" ] ] ].

(** A world in which the index of [lists/dev.mbox] was built. *)
Definition indexed_world : World :=
  (__get_index [message_a; message_b; message_c] "lists/dev.mbox" "res"
               parse_schema false sample_world).2.

(** A world in which the build of an index stopped on [image_only]. *)
Definition broken_world : World :=
  (__get_index [message_a; image_only] "lists/dev.mbox" "res"
               parse_schema false sample_world).2.

(** A message [__mbox_getbody] returns a body for: the last textual part
    of its walk is a single part. *)
Definition has_text_body (message : Message) : Prop :=
  ∃ h c b, last_text (Email.walk message) = Some (Single h c b).

(** The documents of the sample archive. *)
Definition sample_docs : list Document :=
  [ mkDocument "<a@example.org>" "see parse_expr in src/parser.c";
    mkDocument "None" "unrelated text";
    mkDocument "None" "another one" ].

#[global] Instance has_file_column_dec (row : list string) : Decision (has_file_column row).
Proof. unfold has_file_column. apply _. Defined.

(** A table with a row that stops before the [file] column. *)
Definition short_commits : list (list string) :=
  [ commit_row "src/parser.c" "parse_expr"; ["7"; "2017-03-02"; "Bob"] ].

Definition short_world : World :=
  mkWorld (dirs sample_world) {[ "res/commits.list" := short_commits ]}
          (mboxes sample_world) 4 [].

(** The sample table with its rows in another order, one of them repeated
    and empty rows added. *)
Definition shuffled_commits : list (list string) :=
  [ []; commit_row "src/lexer.c" "next_token"; commit_row "src/parser.c" "parse_expr";
    commit_row "src/lexer.c" "next_token"; [] ].

Definition shuffled_world : World :=
  mkWorld (dirs sample_world) {[ "res/commits.list" := shuffled_commits ]}
          (mboxes sample_world) 4 [].

(** The outcome with a function applied to what is returned. *)
Definition outcome_map {A B : Type} (f : A → B) (o : Outcome A) : Outcome B :=
  match o with
  | Ok a => Ok (f a)
  | Raise e => Raise e
  end.

(** A row of the output table has three fields. *)
Definition three_fields (row : list string) : Prop := length row = 3%nat.

(** A results folder in which the index directory of [lists/dev.mbox] holds
    a valid index, a folder and a table, beside the index directory of
    another archive. *)
Definition nested_world : World :=
  mkWorld {[ "res" := None;
             "lists" := None;
             "res/mbox-index" := None;
             "res/mbox-index/dev.mbox" := Some (mkIndexData parse_schema sample_docs);
             "res/mbox-index/dev.mbox/segments" := None;
             "res/mbox-index/user.mbox" := None ]}
          {[ "res/commits.list" := sample_commits;
             "res/mbox-index/dev.mbox/notes.list" := [["a"; "b"]] ]}
          (mboxes sample_world) 4 [].

(** A world with the sample archive and no commit table. *)
Definition no_table_world : World :=
  mkWorld (dirs sample_world) ∅ (mboxes sample_world) 4 [].

(** The single-core machine when the index of the sample archive is built
    and the commit table read. *)
Definition single_core_ready : World :=
  add_trace (build_events "res/mbox-index/dev.mbox" parse_schema sample_docs)
    (set_dirs (built_dirs "res/mbox-index/dev.mbox" (mkIndexData parse_schema sample_docs))
       single_core_world).

(** ** [run]: the mailing lists of the configuration

    [run] parses the command line and loads the configuration, then calls
    [parse] for each mailing list.  The loop is modelled; what the command
    line and the configuration give are its arguments: the project folder
    under the results directory, the mail directory, the three flags and
    the list [conf["mailinglists"]], each entry a dictionary. *)

Section Run.

Variable Query : Type.
Variable query_parser_parse : Schema → string → Query.
Variable searcher_search : list Document → Query → list Document.

(** One round of the loop; [first] is [conf["mailinglists"][0]]. *)
Definition run_mailinglist (resdir_project maildir : string) (filepath file reindex : bool)
    (first ml : gmap string string) : M unit :=
  match ml !! "name" with
  | None => raise KeyError
  | Some name =>
    let mbox_file := OsPath.join maildir [name +:+ ".mbox"] in
    let append_result := bool_decide (ml ≠ first) in
    parse Query query_parser_parse searcher_search
          mbox_file resdir_project filepath file reindex append_result
  end.

Fixpoint run_loop (resdir_project maildir : string) (filepath file reindex : bool)
    (first : gmap string string) (mls : list (gmap string string)) : M unit :=
  match mls with
  | [] => mret ()
  | ml :: rest =>
    run_mailinglist resdir_project maildir filepath file reindex first ml;;
    run_loop resdir_project maildir filepath file reindex first rest
  end.

Definition run (resdir_project maildir : string) (filepath file reindex : bool)
    (mailinglists : list (gmap string string)) : M unit :=
  match mailinglists with
  | [] => mret ()
  | first :: _ =>
    run_loop resdir_project maildir filepath file reindex first mailinglists
  end.

End Run.

(** A configuration that names the list [dev] twice, and one that names
    [dev] and [user]. *)
Definition list_dev : gmap string string := {[ "name" := "dev" ]}.
Definition list_user : gmap string string := {[ "name" := "user" ]}.

Definition two_lists_world : World :=
  mkWorld (dirs sample_world) (files sample_world)
          {[ "lists/dev.mbox" := [message_a; message_b; message_c];
             "lists/user.mbox" := [message_a] ]}
          4 [].

Definition sample_run : list (gmap string string) → M unit :=
  run string (λ _ text, text) sample_search "res" "lists" false false false.

(** ** [codeface_utils/util.py]: [gen_range_path] *)

Module Util.

(** In UTF-8 every byte but a continuation byte starts a character. *)
Definition is_continuation (c : ascii) : bool := Py.in_range 128 191 c.

(** [len(s)] *)
Fixpoint len (s : string) : nat :=
  match s with
  | EmptyString => 0%nat
  | String c s' => if is_continuation c then len s' else S (len s')
  end.

(** [s[0:n]] *)
Fixpoint slice_to (n : nat) (s : string) : string :=
  match s with
  | EmptyString => EmptyString
  | String c s' =>
    if is_continuation c then String c (slice_to n s')
    else match n with
         | O => EmptyString
         | S n' => String c (slice_to n' s')
         end
  end.

(** [str(i)] for an integer. *)
Definition str_of_int (i : Z) : string := NilZero.string_of_int (Z.to_int i).

Fixpoint zeros (n : nat) : string :=
  match n with
  | O => EmptyString
  | S n' => String "0" (zeros n')
  end.

(** [s.zfill(width)]: zeros on the left, after the sign if there is one. *)
Definition zfill (width : nat) (s : string) : string :=
  if decide (width ≤ len s)%nat then s
  else
    let fill := zeros (width - len s) in
    match s with
    | String c s' =>
      if bool_decide (c = "+"%char ∨ c = "-"%char) then String c (fill +:+ s')
      else fill +:+ s
    | EmptyString => fill
    end.

Definition gen_range_path (base_path : string) (i : Z) (start_rev end_rev : string)
    : string :=
  let revs :=
    if decide (len start_rev = 40%nat)
    then (slice_to 6 start_rev, slice_to 6 end_rev)
    else (start_rev, end_rev) in
  OsPath.join base_path
    [zfill 3 (str_of_int i) +:+ "--" +:+ revs.1 +:+ "-" +:+ revs.2].

(** The index field of the name, for a natural number. *)
Definition index_field (k : nat) : string := zfill 3 (str_of_int (Z.of_nat k)).

(** What is checked of the index fields below 1000: three bytes and no
    leading separator; each field before the next one. *)
Definition index_field_shaped (k : nat) : bool :=
  Nat.eqb (String.length (index_field k)) 3 && negb (Py.startswith (index_field k) "/").

Definition index_field_before_next (k : nat) : bool :=
  match String.compare (index_field k) (index_field (S k)) with
  | Lt => true
  | _ => false
  end.

End Util.

Definition sha_a : string := "0a1b2c3d4e5f60718293a4b5c6d7e8f901234567".
Definition sha_b : string := "0a1b2cffffffffffffffffffffffffffffffffff".
Definition sha_c : string := "89abcdef0123456789abcdef0123456789abcdef".
Definition sha_d : string := "89abcd0000000000000000000000000000000000".

(** * Properties *)

(** ** Body extraction *)

Lemma last_text_app (l1 l2 : list Message) :
  last_text (l1 ++ l2) =
  match last_text l2 with
  | Some q => Some q
  | None => last_text l1
  end.
Proof.
  induction l1 as [|p l1 IH]; simpl.
  - by destruct (last_text l2).
  - rewrite IH. by destruct (last_text l2).
Qed.

Lemma foldl_take_text (l : list Message) (body : Py.value) :
  foldl take_text body l =
  match last_text l with
  | Some p => Email.get_payload_decode p
  | None => body
  end.
Proof.
  revert body. induction l as [|p l IH]; intros body; simpl; [done|].
  rewrite IH. destruct (last_text l); [done|].
  unfold take_text. by destruct (is_text p).
Qed.

Lemma getbody_part_walk (body : Py.value) (part : Message) :
  getbody_part body part = foldl take_text body (Email.walk part).
Proof. unfold getbody_part. by destruct part. Qed.

Lemma foldl_getbody_part (l : list Message) (body : Py.value) :
  foldl getbody_part body l = foldl take_text body (flat_map Email.walk l).
Proof.
  revert body. induction l as [|p l IH]; intros body; simpl; [done|].
  by rewrite IH, getbody_part_walk, foldl_app.
Qed.

(** Walking every part of a walk again does not change which textual part
    comes last. *)
Lemma last_text_walk_parts (ps : list Message) :
  Forall (λ p, last_text (flat_map Email.walk (Email.walk p)) = last_text (Email.walk p)) ps →
  last_text (flat_map Email.walk (flat_map Email.walk ps)) = last_text (flat_map Email.walk ps).
Proof.
  induction 1 as [|p ps Hp _ IH]; simpl; [done|].
  by rewrite flat_map_app, !last_text_app, IH, Hp.
Qed.

Lemma last_text_walk_walk (m : Message) :
  last_text (flat_map Email.walk (Email.walk m)) = last_text (Email.walk m).
Proof.
  induction m as [h c b|h c ps IH] using Message_parts_ind; [done|].
  apply last_text_walk_parts in IH.
  change (Email.walk (Multi h c ps)) with ([Multi h c ps] ++ flat_map Email.walk ps).
  rewrite flat_map_app, !last_text_app, IH.
  destruct (last_text (flat_map Email.walk ps)) eqn:E; [done|].
  change (flat_map Email.walk [Multi h c ps])
    with (([Multi h c ps] ++ flat_map Email.walk ps) ++ []).
  by rewrite app_nil_r, last_text_app, E.
Qed.

(** The search ends on the payload of the last textual part of the walk. *)
Lemma getbody_search_last (message : Message) :
  getbody_search message =
  match last_text (Email.walk message) with
  | Some p => Email.get_payload_decode p
  | None => Py.VNone
  end.
Proof.
  unfold getbody_search. destruct (Email.is_multipart message) eqn:Hm.
  - by rewrite foldl_getbody_part, foldl_take_text, last_text_walk_walk.
  - destruct message; [|done]. simpl. unfold take_text.
    by destruct (is_text _).
Qed.

(** Without a textual part the placeholder [' '] reaches
    [str(body, errors="replace")], which does not decode a [str]. *)
Lemma mbox_getbody_no_text (message : Message) :
  last_text (Email.walk message) = None →
  __mbox_getbody message = Raise TypeError.
Proof.
  intros H. unfold __mbox_getbody. by rewrite getbody_search_last, H.
Qed.

(** C1 (the code departs from the claim).  The claim: a message without a
    textual part gets a single-space body and is indexed without failure.
    On [image_only], a message whose only content is a PNG image, the body
    extraction raises [TypeError], and so does the construction of its
    index document. *)
Theorem mbox_getbody_image_only_raises :
  last_text (Email.walk image_only) = None ∧
  __mbox_getbody image_only = Raise TypeError ∧
  index_document image_only = Raise TypeError.
Proof. repeat split; reflexivity. Qed.

(** C2 (as stated, refuted).  On [two_text_parts] the first part whose
    content type begins with [text/] is the plain-text one, and the body
    returned is not its payload. *)
Lemma two_text_parts_not_first : ¬ returns_first_text_part two_text_parts.
Proof.
  intros H.
  destruct (H (Single [] "text/plain" "plain body") eq_refl) as (b & Hb & Hbody).
  injection Hb as <-. vm_compute in Hbody. discriminate Hbody.
Qed.

(** C2 (amended).  For every multipart message, when the last part of the
    walk whose content type contains [text/] is a single part, the body
    returned is its payload, decoded with error replacement. *)
Theorem mbox_getbody_last_text_part (message : Message)
    (h : list (string * string)) (c b : string) :
  Email.is_multipart message = true →
  last_text (Email.walk message) = Some (Single h c b) →
  __mbox_getbody message = Ok (Py.decode_replace b).
Proof.
  intros _ Hlast. unfold __mbox_getbody. by rewrite getbody_search_last, Hlast.
Qed.

(** On [two_text_parts] the body is the payload of the html part. *)
Lemma mbox_getbody_last_text_part_witness :
  Email.is_multipart two_text_parts = true ∧
  last_text (Email.walk two_text_parts) = Some (Single [] "text/html" "<p>html body</p>") ∧
  __mbox_getbody two_text_parts = Ok (Py.decode_replace "<p>html body</p>").
Proof.
  split; [reflexivity|]. split; [reflexivity|].
  apply (mbox_getbody_last_text_part two_text_parts [] "text/html" "<p>html body</p>");
    reflexivity.
Defined.

(** ** The monads *)

Lemma Outcome_bind_Ok {A B : Type} (a : A) (f : A → Outcome B) :
  (x ← Ok a; f x) = f a.
Proof. reflexivity. Qed.

Lemma Outcome_bind_Raise {A B : Type} (e : Exn) (f : A → Outcome B) :
  (x ← Raise e; f x) = Raise e.
Proof. reflexivity. Qed.

(** ** Artifact keys *)

Lemma artifact_key_pair (row : list string) :
  artifact_key false (dict_row commit_data_columns row) = Ok (table_pair row).
Proof.
  do 14 (destruct row as [|? row]; [reflexivity|]). reflexivity.
Qed.

Lemma artifact_key_file (row : list string) :
  artifact_key true (dict_row commit_data_columns row) =
  match row !! 12%nat with
  | Some file => Ok (Some file, Some (OsPath.basename file))
  | None => Raise TypeError
  end.
Proof.
  do 13 (destruct row as [|? row]; [reflexivity|]). reflexivity.
Qed.

Lemma artifact_key_of_pair (files_as_artifacts : bool) (row : list string) :
  (files_as_artifacts = true → has_file_column row) → row ≠ [] →
  artifact_key files_as_artifacts (dict_row commit_data_columns row) =
  Ok (key_of_pair files_as_artifacts (table_pair row)).
Proof.
  intros Hwf Hne. destruct files_as_artifacts.
  - rewrite artifact_key_file. destruct (Hwf eq_refl) as [?|[file Hfile]]; [done|].
    unfold key_of_pair, table_pair. simpl. by rewrite Hfile.
  - apply artifact_key_pair.
Qed.

Lemma collect_artifacts_ok (files_as_artifacts : bool) (rows : list (list string))
    (commit_set : gset Key) :
  (files_as_artifacts = true → Forall has_file_column rows) →
  collect_artifacts files_as_artifacts rows commit_set =
  Ok (commit_set ∪ list_to_set (key_of_pair files_as_artifacts <$> table_pairs rows)).
Proof.
  revert commit_set. induction rows as [|row rows IH]; intros commit_set Hwf.
  - simpl. f_equal. by rewrite (right_id_L ∅ (∪)).
  - assert (files_as_artifacts = true → Forall has_file_column rows) as Hwf'.
    { intros E. by apply Forall_cons_1 in Hwf as [_ ?]. }
    destruct row as [|x row].
    + change (collect_artifacts files_as_artifacts ([] :: rows) commit_set)
        with (collect_artifacts files_as_artifacts rows commit_set).
      rewrite IH by done. unfold table_pairs.
      rewrite filter_cons_False by (intros Hne; by apply Hne). done.
    + change (collect_artifacts files_as_artifacts ((x :: row) :: rows) commit_set)
        with (key ← artifact_key files_as_artifacts (dict_row commit_data_columns (x :: row));
              collect_artifacts files_as_artifacts rows (commit_set ∪ {[ key ]})).
      rewrite artifact_key_of_pair; [|intros E; by apply Forall_cons_1 in Hwf as [? _]|done].
      rewrite Outcome_bind_Ok, IH by done. unfold table_pairs.
      rewrite filter_cons_True by done. rewrite !fmap_cons, list_to_set_cons.
      f_equal. by rewrite (assoc_L (∪)).
Qed.

Lemma length_remove_dups_fmap {A B : Type} `{EqDecision A, EqDecision B}
    (f : A → B) (l : list A) :
  (length (remove_dups (f <$> l)) ≤ length (remove_dups l))%nat.
Proof.
  rewrite <- (length_fmap f (remove_dups l)).
  apply submseteq_length, NoDup_submseteq; [apply NoDup_remove_dups|].
  intros y. rewrite elem_of_remove_dups, !list_elem_of_fmap.
  intros (x & -> & Hx). exists x. by rewrite elem_of_remove_dups.
Qed.

Lemma size_list_to_set_remove_dups (l : list Key) :
  size (list_to_set (C := gset Key) l) = length (remove_dups l).
Proof.
  rewrite <- (size_list_to_set (C := gset Key) (remove_dups l)) by apply NoDup_remove_dups.
  f_equal. apply set_eq. intros k.
  by rewrite !elem_of_list_to_set, elem_of_remove_dups.
Qed.

Lemma get_artifacts_ok (results_folder : string) (files_as_artifacts : bool)
    (w : World) (rows : list (list string)) :
  files w !! OsPath.join results_folder ["commits.list"] = Some rows →
  (files_as_artifacts = true → Forall has_file_column rows) →
  __get_artifacts results_folder files_as_artifacts w =
  (Ok (list_to_set (key_of_pair files_as_artifacts <$> table_pairs rows)), w).
Proof.
  intros Hfile Hwf.
  unfold __get_artifacts, mbind, M_bind, gets. rewrite Hfile. unfold lift.
  rewrite collect_artifacts_ok by done. do 2 f_equal. by rewrite (left_id_L ∅ (∪)).
Qed.

(** C6.  For every commit table (in files-as-artifacts mode: whose rows
    hold the file column), [__get_artifacts] returns a set; a key is in it
    exactly when some non-empty row produces it, so rows producing the same
    pair give one key, and the set has at most as many keys as the table
    has distinct (file, artifact) pairs. *)
Theorem get_artifacts_is_set (results_folder : string) (files_as_artifacts : bool)
    (w : World) (rows : list (list string)) :
  files w !! OsPath.join results_folder ["commits.list"] = Some rows →
  (files_as_artifacts = true → Forall has_file_column rows) →
  ∃ commit_set : gset Key,
    __get_artifacts results_folder files_as_artifacts w = (Ok commit_set, w) ∧
    (∀ key, key ∈ commit_set ↔
            ∃ row, row ∈ rows ∧ row ≠ [] ∧
                   artifact_key files_as_artifacts (dict_row commit_data_columns row) = Ok key) ∧
    (size commit_set ≤ length (remove_dups (table_pairs rows)))%nat.
Proof.
  intros Hfile Hwf.
  exists (list_to_set (key_of_pair files_as_artifacts <$> table_pairs rows)).
  split; [|split].
  - by apply get_artifacts_ok.
  - intros key. rewrite elem_of_list_to_set, list_elem_of_fmap. unfold table_pairs.
    split.
    + intros (pair & -> & Hpair). apply list_elem_of_fmap in Hpair as (row & -> & Hrow).
      apply list_elem_of_filter in Hrow as [Hne Hrow].
      exists row. repeat split; [done..|].
      apply artifact_key_of_pair; [|done].
      intros E. specialize (Hwf E). rewrite Forall_forall in Hwf. by apply Hwf.
    + intros (row & Hrow & Hne & Hkey).
      rewrite artifact_key_of_pair in Hkey; [|intros E; specialize (Hwf E);
        rewrite Forall_forall in Hwf; by apply Hwf|done].
      injection Hkey as <-. exists (table_pair row). split; [done|].
      apply list_elem_of_fmap. exists row. split; [done|].
      by apply list_elem_of_filter.
  - rewrite size_list_to_set_remove_dups. apply length_remove_dups_fmap.
Qed.

(** The sample table: three non-empty rows, two distinct pairs. *)
Lemma get_artifacts_is_set_witness :
  ∃ commit_set : gset Key,
    __get_artifacts "res" false sample_world = (Ok commit_set, sample_world) ∧
    (∀ key, key ∈ commit_set ↔
            ∃ row, row ∈ sample_commits ∧ row ≠ [] ∧
                   artifact_key false (dict_row commit_data_columns row) = Ok key) ∧
    (size commit_set ≤ length (remove_dups (table_pairs sample_commits)))%nat.
Proof.
  apply (get_artifacts_is_set "res" false sample_world sample_commits).
  - reflexivity.
  - intros E. discriminate E.
Defined.

Lemma basename_last_segment (path : string) :
  is_last_segment path (OsPath.basename path).
Proof.
  unfold is_last_segment.
  induction path as [|c path (dir & Hpath & Hdir & Hseg)].
  - by exists EmptyString; auto.
  - simpl. destruct (Py.has_sep path) eqn:Hsep.
    + exists (String c dir). split; [exact (f_equal (String c) Hpath)|]. split; [|done].
      right. destruct Hdir as [->|Hdir].
      * change (path = OsPath.basename path) in Hpath.
        rewrite <- Hpath in Hseg. congruence.
      * by destruct dir.
    + case_bool_decide as Hc.
      * exists (String c EmptyString). split; [done|]. split; [|done].
        right. simpl. by apply bool_decide_eq_true.
      * exists EmptyString. split; [done|]. split; [by left|].
        simpl. rewrite Hsep. by rewrite bool_decide_eq_false_2.
Qed.

Lemma collect_artifacts_file_keys (rows : list (list string)) (commit_set result : gset Key) :
  collect_artifacts true rows commit_set = Ok result →
  ∀ key, key ∈ result →
         key ∈ commit_set ∨ ∃ path, key = (Some path, Some (OsPath.basename path)).
Proof.
  revert commit_set. induction rows as [|row rows IH]; intros commit_set Hres key Hkey.
  - injection Hres as <-. by left.
  - destruct row as [|x row]; [by apply (IH commit_set)|].
    change (collect_artifacts true ((x :: row) :: rows) commit_set)
      with (key ← artifact_key true (dict_row commit_data_columns (x :: row));
            collect_artifacts true rows (commit_set ∪ {[ key ]})) in Hres.
    rewrite artifact_key_file in Hres.
    destruct ((x :: row) !! 12%nat) as [file|]; [|discriminate Hres].
    rewrite Outcome_bind_Ok in Hres.
    destruct (IH _ Hres key Hkey) as [Hin|?]; [|by right].
    apply elem_of_union in Hin as [?|Hin]; [by left|].
    apply elem_of_singleton in Hin as ->. right. by exists file.
Qed.

(** C7.  In files-as-artifacts mode every key of the set returned by
    [__get_artifacts] holds a file path and, as its artifact, the base name
    of that path: its last segment. *)
Theorem get_artifacts_file_basename (results_folder : string) (w w' : World)
    (commit_set : gset Key) (file artifact : option string) :
  __get_artifacts results_folder true w = (Ok commit_set, w') →
  (file, artifact) ∈ commit_set →
  ∃ path, file = Some path ∧
          artifact = Some (OsPath.basename path) ∧
          is_last_segment path (OsPath.basename path).
Proof.
  unfold __get_artifacts, mbind, M_bind, gets, lift, raise.
  destruct (files w !! _) as [rows|]; [|discriminate].
  intros Hres Hin. injection Hres as Hres _.
  destruct (collect_artifacts_file_keys rows ∅ commit_set Hres _ Hin)
    as [Hin'|(path & Hpath)]; [by apply not_elem_of_empty in Hin'|].
  injection Hpath as -> ->. exists path. repeat split. apply basename_last_segment.
Qed.

(** The sample table in files-as-artifacts mode. *)
Lemma get_artifacts_file_basename_witness :
  ∃ path, Some "src/parser.c" = Some path ∧
          Some "parser.c" = Some (OsPath.basename path) ∧
          is_last_segment path (OsPath.basename path).
Proof.
  apply (get_artifacts_file_basename "res" sample_world sample_world
           (list_to_set (key_of_pair true <$> table_pairs sample_commits))).
  - apply get_artifacts_ok; [reflexivity|]. intros _.
    repeat apply Forall_cons_2; try apply Forall_nil_2;
      first [by left | right; by eexists].
  - apply elem_of_list_to_set. vm_compute. apply list_elem_of_here.
Defined.

(** ** What a computation leaves untouched *)

Lemma M_bind_Ok {A B : Type} (m : M A) (f : A → M B) (w w' : World) (a : A) :
  m w = (Ok a, w') → (x ← m; f x) w = f a w'.
Proof. intros H. unfold mbind, M_bind. by rewrite H. Qed.

Lemma M_bind_Raise {A B : Type} (m : M A) (f : A → M B) (w w' : World) (e : Exn) :
  m w = (Raise e, w') → (x ← m; f x) w = (Raise e, w').
Proof. intros H. unfold mbind, M_bind. by rewrite H. Qed.

Lemma keeps_ret {A : Type} (a : A) : keeps (mret a : M A).
Proof. by intros w. Qed.

Lemma keeps_bind {A B : Type} (m : M A) (f : A → M B) :
  keeps m → (∀ a, keeps (f a)) → keeps (x ← m; f x).
Proof.
  intros Hm Hf w. unfold mbind, M_bind.
  destruct (Hm w) as (Hfiles & Hmboxes & Hcpu).
  destruct (m w) as [[a|e] w1]; simpl in *.
  - destruct (Hf a w1) as (? & ? & ?). repeat split; congruence.
  - done.
Qed.

Lemma keeps_gets {A : Type} (f : World → A) : keeps (gets f).
Proof. by intros w. Qed.

Lemma keeps_raise {A : Type} (e : Exn) : keeps (raise e : M A).
Proof. by intros w. Qed.

Lemma keeps_lift {A : Type} (o : Outcome A) : keeps (lift o).
Proof. by intros w. Qed.

Lemma keeps_record (e : Event) : keeps (modify (record_event e)).
Proof. by intros w. Qed.

Lemma keeps_dirs (e : Event) (f : gmap string (option IndexData) → gmap string (option IndexData)) :
  keeps (modify (λ w, record_event e (set_dirs f w))).
Proof. by intros w. Qed.

Create HintDb keeps.
#[local] Hint Resolve keeps_ret keeps_gets keeps_raise keeps_lift keeps_record keeps_dirs : keeps.

Ltac keeps_step :=
  first
    [ apply keeps_bind; [|intros ?]
    | match goal with
      | |- keeps (if ?b then _ else _) => destruct b
      | |- keeps (match ?x with _ => _ end) => destruct x
      end
    | solve [auto with keeps] ].

Lemma keeps_os_path_exists (path : string) : keeps (os_path_exists path).
Proof. apply keeps_gets. Qed.

Lemma keeps_os_makedirs (path : string) : keeps (os_makedirs path).
Proof. unfold os_makedirs, os_path_exists. repeat keeps_step. Qed.

Lemma keeps_index_exists_in (path : string) : keeps (index_exists_in path).
Proof. apply keeps_gets. Qed.

Lemma keeps_index_create_in (path : string) (schema : Schema) :
  keeps (index_create_in path schema).
Proof. unfold index_create_in, os_path_exists. repeat keeps_step. Qed.

Lemma keeps_index_open_dir (path : string) : keeps (index_open_dir path).
Proof. unfold index_open_dir, index_exists_in. repeat keeps_step. Qed.

Lemma keeps_writer_commit (ix : string) (buffer : list Document) :
  keeps (writer_commit ix buffer).
Proof. apply keeps_dirs. Qed.

Lemma keeps_index_searcher (ix : string) : keeps (index_searcher ix).
Proof. unfold index_searcher. repeat keeps_step. Qed.

Lemma keeps_add_documents (mbox : list Message) (buffer : list Document) :
  keeps (add_documents mbox buffer).
Proof.
  revert buffer. induction mbox as [|message mbox IH]; intros buffer; simpl.
  - apply keeps_ret.
  - repeat keeps_step.
Qed.

#[local] Hint Resolve keeps_os_path_exists keeps_os_makedirs
  keeps_index_exists_in keeps_index_create_in keeps_index_open_dir
  keeps_writer_commit keeps_index_searcher keeps_add_documents : keeps.

Lemma keeps_get_artifacts (results_folder : string) (files_as_artifacts : bool) :
  keeps (__get_artifacts results_folder files_as_artifacts).
Proof. unfold __get_artifacts. repeat keeps_step. Qed.

Lemma keeps_run_tasks {A B : Type} (f : A → M B) (xs : list A) :
  (∀ x, keeps (f x)) → keeps (run_tasks f xs).
Proof.
  intros Hf. induction xs as [|x xs IH]; simpl.
  - apply keeps_ret.
  - repeat keeps_step; auto with keeps.
Qed.

Lemma keeps_joblib_Parallel {A B : Type} (n_jobs : Z) (f : A → M B) (xs : list A) :
  (∀ x, keeps (f x)) → keeps (joblib_Parallel n_jobs f xs).
Proof.
  intros Hf. unfold joblib_Parallel. repeat keeps_step. by apply keeps_run_tasks.
Qed.

Lemma keeps_parse_execute (Query : Type) (query_parser_parse : Schema → string → Query)
    (searcher_search : list Document → Query → list Document)
    (artifact : Key) (schema : Schema) (my_index : string) (include_filepath : bool) :
  keeps (__parse_execute Query query_parser_parse searcher_search
           artifact schema my_index include_filepath).
Proof. unfold __parse_execute. repeat keeps_step. Qed.

#[local] Hint Resolve keeps_get_artifacts keeps_parse_execute : keeps.

(** ** Paths *)

Lemma string_app_assoc (s1 s2 s3 : string) :
  (s1 +:+ s2) +:+ s3 = s1 +:+ s2 +:+ s3.
Proof.
  induction s1 as [|c s1 IH]; [done|].
  change (String c ((s1 +:+ s2) +:+ s3) = String c (s1 +:+ s2 +:+ s3)). by rewrite IH.
Qed.

Lemma startswith_nil (s : string) : Py.startswith s EmptyString = true.
Proof. by destruct s. Qed.

Lemma startswith_app_same (a x y : string) :
  Py.startswith (a +:+ x) (a +:+ y) = Py.startswith x y.
Proof.
  induction a as [|c a IH]; [done|].
  change (Py.startswith (String c (a +:+ x)) (String c (a +:+ y)) = Py.startswith x y).
  simpl. by rewrite decide_True.
Qed.

Lemma startswith_app_l (p a b : string) :
  Py.startswith p (a +:+ b) = true → Py.startswith p a = true.
Proof.
  revert p. induction a as [|c a IH]; intros p; [by rewrite startswith_nil|].
  change (String c a +:+ b) with (String c (a +:+ b)).
  destruct p as [|d p]; simpl; [done|]. destruct (decide (c = d)); [apply IH|done].
Qed.

Lemma startswith_self_app (a b : string) : Py.startswith (a +:+ b) a = true.
Proof.
  induction a as [|c a IH]; [apply startswith_nil|].
  change (String c a +:+ b) with (String c (a +:+ b)). simpl. by rewrite decide_True.
Qed.

Lemma startswith_sep_has_sep (s : string) :
  Py.startswith s "/" = true → Py.has_sep s = true.
Proof.
  destruct s as [|c s]; simpl; [done|].
  destruct (decide _) as [<-|]; [|done]. intros _. by rewrite bool_decide_eq_true_2.
Qed.

Lemma basename_relative (path : string) :
  Py.startswith (OsPath.basename path) "/" = false.
Proof.
  destruct (basename_last_segment path) as (dir & _ & _ & Hseg).
  destruct (Py.startswith _ "/") eqn:Hstart; [|done].
  apply startswith_sep_has_sep in Hstart. congruence.
Qed.

Lemma length_rstrip_sep (s : string) :
  (String.length (Py.rstrip_sep s) ≤ String.length s)%nat.
Proof.
  induction s as [|c s IH]; simpl; [done|].
  destruct (Py.rstrip_sep s); [case_bool_decide|]; simpl in *; lia.
Qed.

Lemma length_head_basename (p : string) :
  (String.length (OsPath.head_with_sep p) + String.length (OsPath.basename p)
   = String.length p)%nat.
Proof.
  induction p as [|c p IH]; simpl; [done|].
  destruct (Py.has_sep p); [simpl; lia|].
  case_bool_decide; simpl; lia.
Qed.

Lemma length_dirname (p : string) :
  (String.length (OsPath.dirname p) + String.length (OsPath.basename p)
   ≤ String.length p)%nat.
Proof.
  pose proof (length_head_basename p). pose proof (length_rstrip_sep (OsPath.head_with_sep p)).
  unfold OsPath.dirname. destruct (Py.rstrip_sep _); simpl in *; lia.
Qed.

Lemma length_nonempty (s : string) : s ≠ EmptyString → (0 < String.length s)%nat.
Proof. destruct s; [done|]. simpl. lia. Qed.

(** Each step of [os.makedirs] goes to a shorter path. *)
Lemma makedirs_head_shorter (name : string) :
  let head := OsPath.dirname name in
  let tail := OsPath.basename name in
  let head' := if bool_decide (tail = EmptyString) then OsPath.dirname head else head in
  let tail' := if bool_decide (tail = EmptyString) then OsPath.basename head else tail in
  tail' ≠ EmptyString → (String.length head' < String.length name)%nat.
Proof.
  intros head tail head' tail' Htail. subst head' tail'.
  pose proof (length_dirname name). pose proof (length_dirname head).
  apply length_nonempty in Htail. fold head tail in H.
  case_bool_decide; lia.
Qed.

Lemma makedirs_heads_shorter (fuel : nat) (name p : string) :
  p ∈ OsPath.makedirs_heads fuel name → (String.length p < String.length name)%nat.
Proof.
  revert name. induction fuel as [|fuel IH]; intros name.
  - by intros ?%elem_of_nil.
  - cbn [OsPath.makedirs_heads].
    pose proof (makedirs_head_shorter name) as Hshorter. cbv zeta in Hshorter |- *.
    set (head' := if bool_decide (OsPath.basename name = EmptyString)
                  then OsPath.dirname (OsPath.dirname name) else OsPath.dirname name) in *.
    set (tail' := if bool_decide (OsPath.basename name = EmptyString)
                  then OsPath.basename (OsPath.dirname name) else OsPath.basename name) in *.
    destruct (bool_decide (Py.rstrip_sep head' ≠ EmptyString));
      [|by intros ?%elem_of_nil].
    case_bool_decide as Htail; [|by intros ?%elem_of_nil].
    specialize (Hshorter Htail). cbn [andb].
    intros [Hin| ->%list_elem_of_singleton]%elem_of_app; [|done].
    apply IH in Hin. lia.
Qed.

(** The directories above a path are shorter than the path: the path is
    not one of them. *)
Lemma parents_shorter (name p : string) :
  p ∈ OsPath.parents name → (String.length p < String.length name)%nat.
Proof. apply makedirs_heads_shorter. Qed.

(** More fuel than the length of the path gives nothing more. *)
Lemma makedirs_heads_fuel (fuel : nat) (name : string) :
  (String.length name ≤ fuel)%nat → OsPath.makedirs_heads fuel name = OsPath.parents name.
Proof.
  unfold OsPath.parents.
  assert (∀ n m name', (String.length name' ≤ n)%nat → (String.length name' ≤ m)%nat →
                       OsPath.makedirs_heads n name' = OsPath.makedirs_heads m name') as Hany.
  { induction n as [|n IH]; intros m name' Hn Hm.
    - destruct name'; [|simpl in Hn; lia]. by destruct m.
    - destruct m as [|m]; [destruct name'; [done|simpl in Hm; lia]|].
      cbn [OsPath.makedirs_heads].
      pose proof (makedirs_head_shorter name') as Hshorter. cbv zeta in Hshorter |- *.
      set (head' := if bool_decide (OsPath.basename name' = EmptyString)
                    then OsPath.dirname (OsPath.dirname name') else OsPath.dirname name') in *.
      set (tail' := if bool_decide (OsPath.basename name' = EmptyString)
                    then OsPath.basename (OsPath.dirname name') else OsPath.basename name') in *.
      destruct (bool_decide (Py.rstrip_sep head' ≠ EmptyString)); [|done].
      case_bool_decide as Htail; [|done].
      specialize (Hshorter Htail). cbn [andb]. f_equal. apply IH; lia. }
  intros Hfuel. by apply Hany.
Qed.

(** A relative name is joined to the folder after one separator, which is
    added unless the folder is empty or brings its own. *)
Lemma join2_relative (folder name : string) :
  Py.startswith name "/" = false →
  OsPath.join2 folder name =
  (if bool_decide (folder = EmptyString) || Py.ends_with_sep folder
   then folder else folder +:+ "/") +:+ name.
Proof.
  intros Hname. unfold OsPath.join2. rewrite Hname.
  destruct (_ || _); [done|]. by rewrite string_app_assoc.
Qed.

(** The index directory of an archive lies in the folder [mbox-index] of
    the results folder. *)
Lemma index_path_of_prefix (results_folder mbox_path : string) :
  ∃ rest, index_path_of results_folder mbox_path =
          (if bool_decide (results_folder = EmptyString) || Py.ends_with_sep results_folder
           then results_folder else results_folder +:+ "/") +:+ "mbox-index" +:+ rest.
Proof.
  unfold index_path_of, OsPath.join. cbn [foldl].
  rewrite (join2_relative results_folder "mbox-index") by done.
  rewrite join2_relative by apply basename_relative.
  destruct (_ || Py.ends_with_sep (_ +:+ "mbox-index")); eexists; by rewrite !string_app_assoc.
Qed.

(** A file of the results folder whose name does not begin with
    [mbox-index] is neither the index directory of an archive nor below
    it. *)
Lemma results_file_outside_index (results_folder mbox_path name : string) :
  Py.startswith name "/" = false →
  Py.startswith name "mbox-index" = false →
  ¬ in_tree (index_path_of results_folder mbox_path) (OsPath.join results_folder [name]).
Proof.
  intros Hrel Hname Htree.
  destruct (index_path_of_prefix results_folder mbox_path) as [rest Hpath].
  unfold OsPath.join in Htree. cbn [foldl] in Htree.
  rewrite join2_relative in Htree by done. rewrite Hpath in Htree.
  set (folder := if bool_decide (results_folder = EmptyString) || Py.ends_with_sep results_folder
                 then results_folder else results_folder +:+ "/") in *.
  clearbody folder.
  assert (Py.startswith (folder +:+ name) (folder +:+ "mbox-index") = true) as Hstart.
  { destruct Htree as [Heq|Hbelow].
    - rewrite Heq, <- string_app_assoc. apply startswith_self_app.
    - unfold is_below in Hbelow.
      destruct (Py.ends_with_sep (folder +:+ "mbox-index" +:+ rest)).
      + rewrite <- string_app_assoc in Hbelow. by apply startswith_app_l in Hbelow.
      + apply startswith_app_l in Hbelow. rewrite <- string_app_assoc in Hbelow.
        by apply startswith_app_l in Hbelow. }
  rewrite startswith_app_same in Hstart. congruence.
Qed.

Lemma output_file_outside_index (results_folder mbox_path : string)
    (files_as_artifacts include_filepath : bool) :
  ¬ in_tree (index_path_of results_folder mbox_path)
            (OsPath.join results_folder [output_filename files_as_artifacts include_filepath]).
Proof.
  apply results_file_outside_index; by destruct files_as_artifacts, include_filepath.
Qed.

Lemma commit_table_outside_index (results_folder mbox_path : string) :
  ¬ in_tree (index_path_of results_folder mbox_path)
            (OsPath.join results_folder ["commits.list"]).
Proof. by apply results_file_outside_index. Qed.

(** ** What a computation leaves untouched outside a directory *)

Lemma keeps_outside_of_keeps {A : Type} (in_files in_mboxes : string → Prop) (m : M A) :
  keeps m → keeps_outside in_files in_mboxes m.
Proof.
  intros Hm w. destruct (Hm w) as (Hfiles & Hmboxes & Hcpu).
  by rewrite Hfiles, Hmboxes.
Qed.

Lemma keeps_outside_bind {A B : Type} (in_files in_mboxes : string → Prop)
    (m : M A) (f : A → M B) :
  keeps_outside in_files in_mboxes m → (∀ a, keeps_outside in_files in_mboxes (f a)) →
  keeps_outside in_files in_mboxes (x ← m; f x).
Proof.
  intros Hm Hf w. unfold mbind, M_bind.
  destruct (Hm w) as (Hfiles & Hmboxes & Hcpu).
  destruct (m w) as [[a|e] w1]; simpl in *; [|done].
  destruct (Hf a w1) as (Hfiles' & Hmboxes' & Hcpu'). split; [|split].
  - intros p Hp. by rewrite Hfiles', Hfiles.
  - intros p Hp. by rewrite Hmboxes', Hmboxes.
  - congruence.
Qed.

Lemma keeps_outside_weaken {A : Type} (in_files in_mboxes in_files' in_mboxes' : string → Prop)
    (m : M A) :
  (∀ p, in_files p → in_files' p) → (∀ p, in_mboxes p → in_mboxes' p) →
  keeps_outside in_files in_mboxes m → keeps_outside in_files' in_mboxes' m.
Proof.
  intros Hf Hm Hkeeps w. destruct (Hkeeps w) as (Hfiles & Hmboxes & Hcpu).
  split; [|split; [|done]]; intros p Hp; [apply Hfiles|apply Hmboxes]; naive_solver.
Qed.

Lemma lookup_remove_tree {V : Type} (path p : string) (m : gmap string V) :
  ¬ in_tree path p → remove_tree path m !! p = m !! p.
Proof.
  intros Hp. unfold remove_tree. destruct (m !! p) as [x|] eqn:Hx.
  - by apply map_lookup_filter_Some.
  - apply map_lookup_filter_None. by left.
Qed.

Lemma lookup_remove_tree_in {V : Type} (path p : string) (m : gmap string V) :
  in_tree path p → remove_tree path m !! p = None.
Proof.
  intros Hp. apply map_lookup_filter_None. right. intros x _ Hnot. by apply Hnot.
Qed.

(** What the directory held before does not show once it is removed. *)
Lemma remove_tree_insert {V : Type} (path : string) (x : V) (m : gmap string V) :
  remove_tree path (<[path := x]> m) = remove_tree path m.
Proof.
  apply map_eq. intros p. destruct (decide (in_tree path p)) as [Hin|Hout].
  - by rewrite !lookup_remove_tree_in.
  - rewrite !lookup_remove_tree by done. apply lookup_insert_ne.
    intros ->. apply Hout. by left.
Qed.

Lemma keeps_outside_shutil_rmtree (path : string) :
  keeps_outside (in_tree path) (in_tree path) (shutil_rmtree path).
Proof.
  intros w. unfold shutil_rmtree, os_path_exists, gets, modify, raise, mbind, M_bind.
  destruct (dirs w !! path); simpl; [|done].
  split; [|split; [|done]]; intros p Hp; by apply lookup_remove_tree.
Qed.

Ltac keeps_outside_step :=
  first
    [ apply keeps_outside_shutil_rmtree
    | apply keeps_outside_bind; [|intros ?]
    | match goal with
      | |- keeps_outside _ _ (if ?b then _ else _) => destruct b
      | |- keeps_outside _ _ (match ?x with _ => _ end) => destruct x
      end
    | solve [apply keeps_outside_of_keeps; auto with keeps] ].

Lemma keeps_outside_get_index (mbox : list Message) (mbox_path results_folder : string)
    (schema : Schema) (reindex : bool) :
  keeps_outside (in_tree (index_path_of results_folder mbox_path))
                (in_tree (index_path_of results_folder mbox_path))
                (__get_index mbox mbox_path results_folder schema reindex).
Proof. unfold __get_index. repeat keeps_outside_step. Qed.

Lemma keeps_outside_mailbox_mbox (mbox_name : string) :
  keeps_outside (λ _, False) (λ p, p = mbox_name) (mailbox_mbox mbox_name).
Proof.
  intros w. unfold mailbox_mbox, gets, modify, mbind, M_bind, mret, M_ret.
  destruct (mboxes w !! mbox_name); simpl; [done|].
  split; [done|]. split; [|done]. intros p Hp. by rewrite lookup_insert_ne.
Qed.

Lemma keeps_outside_parse_search (Query : Type)
    (query_parser_parse : Schema → string → Query)
    (searcher_search : list Document → Query → list Document)
    (mbox_name results_folder : string) (include_filepath files_as_artifacts reindex : bool) :
  keeps_outside (in_tree (index_path_of results_folder mbox_name))
                (λ p, p = mbox_name ∨ in_tree (index_path_of results_folder mbox_name) p)
                (parse_search Query query_parser_parse searcher_search mbox_name results_folder
                   include_filepath files_as_artifacts reindex).
Proof.
  unfold parse_search. apply keeps_outside_bind.
  { eapply keeps_outside_weaken; [| |apply keeps_outside_mailbox_mbox]; naive_solver. }
  intros mbox. apply keeps_outside_bind.
  { eapply keeps_outside_weaken; [| |apply keeps_outside_get_index]; naive_solver. }
  intros ix. apply keeps_outside_of_keeps.
  apply keeps_bind; [apply keeps_get_artifacts|intros artifacts].
  apply keeps_bind; [apply keeps_gets|intros num_cores].
  apply keeps_joblib_Parallel. intros commit. apply keeps_parse_execute.
Qed.

(** The search phase of [parse] leaves the output table and the commit
    table as they are. *)
Lemma parse_search_output_file (Query : Type)
    (query_parser_parse : Schema → string → Query)
    (searcher_search : list Document → Query → list Document)
    (mbox_name results_folder : string) (include_filepath files_as_artifacts reindex : bool)
    (a b : bool) (w : World) :
  let w1 := (parse_search Query query_parser_parse searcher_search mbox_name results_folder
               include_filepath files_as_artifacts reindex w).2 in
  files w1 !! OsPath.join results_folder [output_filename a b]
    = files w !! OsPath.join results_folder [output_filename a b] ∧
  files w1 !! OsPath.join results_folder ["commits.list"]
    = files w !! OsPath.join results_folder ["commits.list"].
Proof.
  destruct (keeps_outside_parse_search Query query_parser_parse searcher_search mbox_name
              results_folder include_filepath files_as_artifacts reindex w) as (Hfiles & _).
  split; apply Hfiles; [apply output_file_outside_index|apply commit_table_outside_index].
Qed.

(** ** Building and reusing the index *)

Lemma index_documents_cons_inv (message : Message) (rest : list Message) (docs : list Document) :
  index_documents (message :: rest) = Ok docs →
  ∃ doc docs', index_document message = Ok doc ∧ index_documents rest = Ok docs' ∧
               docs = doc :: docs'.
Proof.
  simpl. destruct (index_document message) as [doc|]; [|discriminate].
  rewrite Outcome_bind_Ok. destruct (index_documents rest) as [docs'|]; [|discriminate].
  rewrite Outcome_bind_Ok. intros [= <-]. by exists doc, docs'.
Qed.

Lemma World_eq (w1 w2 : World) :
  dirs w1 = dirs w2 → files w1 = files w2 → mboxes w1 = mboxes w2 →
  cpu_count w1 = cpu_count w2 → trace w1 = trace w2 → w1 = w2.
Proof. destruct w1, w2. simpl. by intros -> -> -> -> ->. Qed.

Lemma dirs_record_event (e : Event) (w : World) : dirs (record_event e w) = dirs w.
Proof. reflexivity. Qed.
Lemma files_record_event (e : Event) (w : World) : files (record_event e w) = files w.
Proof. reflexivity. Qed.
Lemma mboxes_record_event (e : Event) (w : World) : mboxes (record_event e w) = mboxes w.
Proof. reflexivity. Qed.
Lemma cpu_count_record_event (e : Event) (w : World) :
  cpu_count (record_event e w) = cpu_count w.
Proof. reflexivity. Qed.
Lemma trace_record_event (e : Event) (w : World) :
  trace (record_event e w) = trace w ++ [e].
Proof. reflexivity. Qed.

Lemma dirs_add_trace (es : list Event) (w : World) : dirs (add_trace es w) = dirs w.
Proof. reflexivity. Qed.
Lemma files_add_trace (es : list Event) (w : World) : files (add_trace es w) = files w.
Proof. reflexivity. Qed.
Lemma mboxes_add_trace (es : list Event) (w : World) : mboxes (add_trace es w) = mboxes w.
Proof. reflexivity. Qed.
Lemma cpu_count_add_trace (es : list Event) (w : World) :
  cpu_count (add_trace es w) = cpu_count w.
Proof. reflexivity. Qed.
Lemma trace_add_trace (es : list Event) (w : World) :
  trace (add_trace es w) = trace w ++ es.
Proof. reflexivity. Qed.

Lemma dirs_set_dirs (f : gmap string (option IndexData) → gmap string (option IndexData))
    (w : World) : dirs (set_dirs f w) = f (dirs w).
Proof. reflexivity. Qed.
Lemma files_set_dirs (f : gmap string (option IndexData) → gmap string (option IndexData))
    (w : World) : files (set_dirs f w) = files w.
Proof. reflexivity. Qed.
Lemma mboxes_set_dirs (f : gmap string (option IndexData) → gmap string (option IndexData))
    (w : World) : mboxes (set_dirs f w) = mboxes w.
Proof. reflexivity. Qed.
Lemma cpu_count_set_dirs (f : gmap string (option IndexData) → gmap string (option IndexData))
    (w : World) : cpu_count (set_dirs f w) = cpu_count w.
Proof. reflexivity. Qed.
Lemma trace_set_dirs (f : gmap string (option IndexData) → gmap string (option IndexData))
    (w : World) : trace (set_dirs f w) = trace w.
Proof. reflexivity. Qed.

Lemma files_set_files (f : gmap string (list (list string)) → gmap string (list (list string)))
    (w : World) : files (set_files f w) = f (files w).
Proof. reflexivity. Qed.

Lemma dirs_rmtree_world (path : string) (w : World) :
  dirs (rmtree_world path w) = remove_tree path (dirs w).
Proof. reflexivity. Qed.
Lemma files_rmtree_world (path : string) (w : World) :
  files (rmtree_world path w) = remove_tree path (files w).
Proof. reflexivity. Qed.
Lemma mboxes_rmtree_world (path : string) (w : World) :
  mboxes (rmtree_world path w) = remove_tree path (mboxes w).
Proof. reflexivity. Qed.
Lemma cpu_count_rmtree_world (path : string) (w : World) :
  cpu_count (rmtree_world path w) = cpu_count w.
Proof. reflexivity. Qed.
Lemma trace_rmtree_world (path : string) (w : World) :
  trace (rmtree_world path w) = trace w.
Proof. reflexivity. Qed.

Lemma dirs_mbox_opened (mbox_name : string) (w : World) :
  dirs (mbox_opened mbox_name w) = dirs w.
Proof. unfold mbox_opened. by destruct (mboxes w !! mbox_name). Qed.
Lemma files_mbox_opened (mbox_name : string) (w : World) :
  files (mbox_opened mbox_name w) = files w.
Proof. unfold mbox_opened. by destruct (mboxes w !! mbox_name). Qed.
Lemma cpu_count_mbox_opened (mbox_name : string) (w : World) :
  cpu_count (mbox_opened mbox_name w) = cpu_count w.
Proof. unfold mbox_opened. by destruct (mboxes w !! mbox_name). Qed.

Create Rewrite HintDb world.
#[local] Hint Rewrite dirs_record_event files_record_event mboxes_record_event
  cpu_count_record_event trace_record_event dirs_add_trace files_add_trace
  mboxes_add_trace cpu_count_add_trace trace_add_trace dirs_set_dirs files_set_dirs
  mboxes_set_dirs cpu_count_set_dirs trace_set_dirs
  dirs_rmtree_world files_rmtree_world mboxes_rmtree_world cpu_count_rmtree_world
  trace_rmtree_world dirs_mbox_opened files_mbox_opened cpu_count_mbox_opened : world.

(** What [mailbox.mbox] returns and the world it leaves. *)
Lemma mailbox_mbox_run (mbox_name : string) (w : World) :
  mailbox_mbox mbox_name w = (Ok (default [] (mboxes w !! mbox_name)), mbox_opened mbox_name w).
Proof.
  unfold mailbox_mbox, mbox_opened, gets, modify, mbind, M_bind, mret, M_ret.
  by destruct (mboxes w !! mbox_name).
Qed.

(** The archive is there afterwards, with the messages that were
    returned. *)
Lemma mboxes_mbox_opened (mbox_name : string) (w : World) :
  mboxes (mbox_opened mbox_name w) !! mbox_name = Some (default [] (mboxes w !! mbox_name)).
Proof.
  unfold mbox_opened. destruct (mboxes w !! mbox_name) eqn:Hm; [done|].
  simpl. apply lookup_insert_eq.
Qed.

Lemma add_trace_nil (w : World) : add_trace [] w = w.
Proof. destruct w. unfold add_trace. simpl. by rewrite app_nil_r. Qed.

Lemma add_trace_add_trace (es1 es2 : list Event) (w : World) :
  add_trace es2 (add_trace es1 w) = add_trace (es1 ++ es2) w.
Proof. unfold add_trace. simpl. by rewrite app_assoc. Qed.

Lemma add_documents_ok (mbox : list Message) (buffer docs : list Document) (w : World) :
  index_documents mbox = Ok docs →
  add_documents mbox buffer w = (Ok (buffer ++ docs), add_trace (AddDocument <$> docs) w).
Proof.
  revert buffer docs w. induction mbox as [|message mbox IH]; intros buffer docs w Hdocs.
  - injection Hdocs as <-. by rewrite add_trace_nil, app_nil_r.
  - apply index_documents_cons_inv in Hdocs as (doc & docs' & Hdoc & Hdocs' & ->).
    simpl. unfold lift. rewrite Hdoc.
    erewrite M_bind_Ok by reflexivity.
    erewrite M_bind_Ok by reflexivity.
    rewrite (IH _ docs') by done.
    change (record_event (AddDocument doc) w) with (add_trace [AddDocument doc] w).
    by rewrite add_trace_add_trace, <- app_assoc.
Qed.

Lemma add_documents_inv (mbox : list Message) (buffer result : list Document) (w w' : World) :
  add_documents mbox buffer w = (Ok result, w') →
  ∃ docs, index_documents mbox = Ok docs ∧ result = buffer ++ docs.
Proof.
  revert buffer w. induction mbox as [|message mbox IH]; intros buffer w.
  - intros [= <- _]. exists []. by rewrite app_nil_r.
  - simpl. unfold lift. destruct (index_document message) as [doc|e].
    + erewrite M_bind_Ok by reflexivity. erewrite M_bind_Ok by reflexivity.
      intros H. apply IH in H as (docs & Hdocs & ->). rewrite Hdocs.
      exists (doc :: docs). by rewrite <- app_assoc.
    + erewrite M_bind_Raise by reflexivity. discriminate.
Qed.

Ltac run_world :=
  unfold os_path_exists, shutil_rmtree, os_makedirs, index_exists_in, index_create_in,
    index_open_dir, writer_commit, index_searcher, gets, modify, raise, lift;
  unfold mbind, M_bind, mret, M_ret; simpl.

Lemma get_index_fresh (mbox : list Message) (mbox_path results_folder : string)
    (schema : Schema) (reindex : bool) (docs : list Document) (w : World) :
  let index_path := index_path_of results_folder mbox_path in
  dirs w !! index_path = None →
  index_documents mbox = Ok docs →
  __get_index mbox mbox_path results_folder schema reindex w =
  (Ok index_path,
   add_trace (build_events index_path schema docs)
     (set_dirs (built_dirs index_path (mkIndexData schema docs)) w)).
Proof.
  intros index_path Hdir Hdocs. unfold __get_index. fold index_path. clearbody index_path.
  destruct w as [d f m c t]. simpl in Hdir.
  run_world. repeat (rewrite ?Hdir, ?lookup_insert_eq; simpl).
  rewrite (add_documents_ok _ _ docs) by done.
  f_equal. apply World_eq; autorewrite with world; try done.
  - rewrite lookup_insert_eq. cbn [ix_schema ix_docs app]. unfold built_dirs.
    by rewrite !insert_insert_eq.
  - unfold build_events. by rewrite <- !app_assoc.
Qed.

Lemma add_documents_raise (mbox : list Message) (buffer : list Document) (e : Exn) (w : World) :
  index_documents mbox = Raise e →
  ∃ w', add_documents mbox buffer w = (Raise e, w').
Proof.
  revert buffer w. induction mbox as [|message mbox IH]; intros buffer w; [discriminate|].
  simpl. unfold lift. destruct (index_document message) as [doc|e'].
  - rewrite Outcome_bind_Ok.
    destruct (index_documents mbox) as [docs|e'']; [discriminate|].
    rewrite Outcome_bind_Raise. intros [= ->].
    erewrite M_bind_Ok by reflexivity. erewrite M_bind_Ok by reflexivity.
    by apply IH.
  - rewrite Outcome_bind_Raise. intros [= ->].
    erewrite M_bind_Raise by reflexivity. by exists w.
Qed.

(** An archive that holds a message without a document cannot be indexed:
    the build stops on the exception, before any commit. *)
Lemma get_index_fresh_raise (mbox : list Message) (mbox_path results_folder : string)
    (schema : Schema) (reindex : bool) (e : Exn) (w : World) :
  dirs w !! index_path_of results_folder mbox_path = None →
  index_documents mbox = Raise e →
  ∃ w', __get_index mbox mbox_path results_folder schema reindex w = (Raise e, w').
Proof.
  intros Hdir Hdocs. unfold __get_index.
  set (index_path := index_path_of results_folder mbox_path) in *. clearbody index_path.
  destruct w as [d f m c t]. simpl in Hdir.
  run_world. repeat (rewrite ?Hdir, ?lookup_insert_eq; simpl).
  edestruct (add_documents_raise mbox [] e) as [w' ->]; [done|]. by exists w'.
Qed.

(** With [reindex] set, the run on an existing directory is the run on the
    world from which the directory was removed, with all it held. *)
Lemma get_index_reindex_removes (mbox : list Message) (mbox_path results_folder : string)
    (schema : Schema) (old : option IndexData) (w : World) :
  let index_path := index_path_of results_folder mbox_path in
  dirs w !! index_path = Some old →
  __get_index mbox mbox_path results_folder schema true w =
  __get_index mbox mbox_path results_folder schema true
              (record_event (Rmtree index_path) (rmtree_world index_path w)).
Proof.
  intros index_path Hdir. unfold __get_index. fold index_path. clearbody index_path.
  assert (remove_tree index_path (dirs w) !! index_path = None) as Hgone.
  { apply lookup_remove_tree_in. by left. }
  destruct w as [d f m c t]. simpl in Hdir, Hgone.
  run_world. by repeat (rewrite ?Hdir, ?Hgone; simpl).
Qed.

(** With [reindex] set, an existing directory is removed first and the
    index is built anew. *)
Lemma get_index_reindex (mbox : list Message) (mbox_path results_folder : string)
    (schema : Schema) (old : option IndexData) (docs : list Document) (w : World) :
  let index_path := index_path_of results_folder mbox_path in
  dirs w !! index_path = Some old →
  index_documents mbox = Ok docs →
  __get_index mbox mbox_path results_folder schema true w =
  (Ok index_path,
   add_trace (Rmtree index_path :: build_events index_path schema docs)
     (set_dirs (built_dirs index_path (mkIndexData schema docs))
        (rmtree_world index_path w))).
Proof.
  intros index_path Hdir Hdocs.
  rewrite (get_index_reindex_removes _ _ _ _ old) by done.
  rewrite (get_index_fresh _ _ _ _ _ docs); [|by apply lookup_remove_tree_in; left|done].
  f_equal. by apply World_eq; autorewrite with world; rewrite <- ?app_assoc.
Qed.

(** A valid index is opened and nothing else happens. *)
Lemma get_index_reuse (mbox : list Message) (mbox_path results_folder : string)
    (schema : Schema) (data : IndexData) (w : World) :
  let index_path := index_path_of results_folder mbox_path in
  dirs w !! index_path = Some (Some data) →
  __get_index mbox mbox_path results_folder schema false w =
  (Ok index_path, record_event (OpenDir index_path) w).
Proof.
  intros index_path Hdir. unfold __get_index. fold index_path. clearbody index_path.
  destruct w as [d f m c t]. simpl in Hdir.
  run_world. by repeat (rewrite ?Hdir; simpl).
Qed.

(** A directory without a valid index, and no [reindex]. *)
Lemma get_index_stale_fails (mbox : list Message) (mbox_path results_folder : string)
    (schema : Schema) (w : World) :
  dirs w !! index_path_of results_folder mbox_path = Some None →
  __get_index mbox mbox_path results_folder schema false w = (Raise FileExistsError, w).
Proof.
  intros Hdir. unfold __get_index.
  set (index_path := index_path_of results_folder mbox_path) in *. clearbody index_path.
  destruct w as [d f m c t]. simpl in Hdir.
  run_world. by repeat (rewrite ?Hdir; simpl).
Qed.

(** C9.  When the index directory exists without a valid index in it and
    [reindex] is false, [__get_index] does not rebuild: [os.makedirs]
    raises on the existing path, and the world is left as it was. *)
Theorem get_index_stale_directory (mbox : list Message) (mbox_path results_folder : string)
    (schema : Schema) (w : World) :
  dirs w !! index_path_of results_folder mbox_path = Some None →
  __get_index mbox mbox_path results_folder schema false w = (Raise FileExistsError, w).
Proof.
  intros Hdir. unfold __get_index.
  set (index_path := index_path_of results_folder mbox_path) in *. clearbody index_path.
  destruct w as [d f m c t]. simpl in Hdir.
  run_world. by repeat (rewrite ?Hdir; simpl).
Qed.

(** The stale results folder. *)
Lemma get_index_stale_directory_witness :
  dirs stale_world !! index_path_of "res" "lists/dev.mbox" = Some None ∧
  __get_index [message_a; message_b; message_c] "lists/dev.mbox" "res" parse_schema false
            stale_world
  = (Raise FileExistsError, stale_world).
Proof.
  split; [reflexivity|].
  apply (get_index_stale_directory [message_a; message_b; message_c]
           "lists/dev.mbox" "res" parse_schema stale_world).
  reflexivity.
Defined.

(** C4 (the code departs from the claim).  The claim: whenever no valid
    index exists at the path, the directory is created, the index
    initialised, filled and committed.  In [stale_world] the directory of
    [lists/dev.mbox] exists and holds no index; the run with [reindex]
    false raises [FileExistsError], leaves no index behind and records no
    event. *)
Theorem get_index_stale_world_raises :
  let run := __get_index [message_a; message_b; message_c] "lists/dev.mbox" "res"
                       parse_schema false stale_world in
  dirs stale_world !! "res/mbox-index/dev.mbox" = Some None ∧
  run.1 = Raise FileExistsError ∧
  dirs run.2 !! "res/mbox-index/dev.mbox" = Some None ∧
  trace run.2 = [].
Proof. vm_compute. repeat split; reflexivity. Qed.

(** ** Message identifiers *)

Lemma index_document_message_id (message : Message) (doc : Document) :
  index_document message = Ok doc →
  messageID doc = Py.str_of (Email.getitem message "message-id").
Proof.
  unfold index_document. destruct (__mbox_getbody message) as [body|]; [|discriminate].
  rewrite Outcome_bind_Ok. by intros [= <-].
Qed.

Lemma index_documents_lookup (mbox : list Message) (docs : list Document) :
  index_documents mbox = Ok docs →
  length docs = length mbox ∧
  ∀ (i : nat) message doc,
    mbox !! i = Some message → docs !! i = Some doc → index_document message = Ok doc.
Proof.
  revert docs. induction mbox as [|m mbox IH]; intros docs Hdocs.
  - injection Hdocs as <-. split; [done|]. intros i message doc Hm. by destruct i.
  - apply index_documents_cons_inv in Hdocs as (d & docs' & Hd & Hdocs' & ->).
    destruct (IH _ Hdocs') as [Hlen Hlookup]. split; [simpl; by f_equal|].
    intros [|i] message doc; simpl.
    + by intros [= <-] [= <-].
    + apply Hlookup.
Qed.

Lemma get_index_fresh_inv (mbox : list Message) (mbox_path results_folder : string)
    (schema : Schema) (reindex : bool) (ix : string) (w w' : World) :
  dirs w !! index_path_of results_folder mbox_path = None →
  __get_index mbox mbox_path results_folder schema reindex w = (Ok ix, w') →
  ∃ docs, index_documents mbox = Ok docs ∧
          ix = index_path_of results_folder mbox_path ∧
          dirs w' !! ix = Some (Some (mkIndexData schema docs)).
Proof.
  intros Hdir Hrun. destruct (index_documents mbox) as [docs|e] eqn:Hdocs.
  - rewrite (get_index_fresh _ _ _ _ _ docs) in Hrun by done.
    injection Hrun as <- <-. exists docs. repeat split.
    autorewrite with world. apply lookup_insert_eq.
  - destruct (get_index_fresh_raise mbox mbox_path results_folder schema reindex e w)
      as [w'' Hraise]; [done..|].
    rewrite Hraise in Hrun. discriminate Hrun.
Qed.

(** Whatever its outcome, the loop over the archive hands the writer the
    documents of the messages, in their order, up to the message on which
    it stops. *)
Lemma add_documents_run (mbox : list Message) (buffer : list Document) (w : World) :
  ∃ docs,
    (add_documents mbox buffer w).2 = add_trace (AddDocument <$> docs) w ∧
    ∀ (i : nat) message doc,
      mbox !! i = Some message → docs !! i = Some doc → index_document message = Ok doc.
Proof.
  revert buffer w. induction mbox as [|message mbox IH]; intros buffer w.
  - exists []. split; [by rewrite add_trace_nil|]. intros i message doc _ Hdoc. by destruct i.
  - simpl. unfold lift. destruct (index_document message) as [doc|e] eqn:Hdoc.
    + erewrite M_bind_Ok by reflexivity. erewrite M_bind_Ok by reflexivity.
      destruct (IH (buffer ++ [doc]) (record_event (AddDocument doc) w)) as (docs & Hw & Hdocs).
      exists (doc :: docs). split.
      * rewrite Hw. change (record_event (AddDocument doc) w) with (add_trace [AddDocument doc] w).
        by rewrite add_trace_add_trace.
      * intros [|i] m d; simpl; [by intros [= <-] [= <-]|apply Hdocs].
    + erewrite M_bind_Raise by reflexivity. exists []. split; [by rewrite add_trace_nil|].
      intros i m d _ Hd. by destruct i.
Qed.

(** A build that stops on a message: the index was made and opened, the
    documents before that message were handed to the writer, and nothing
    was committed. *)
Lemma get_index_fresh_fails (mbox : list Message) (mbox_path results_folder : string)
    (schema : Schema) (reindex : bool) (e : Exn) (w : World) :
  let index_path := index_path_of results_folder mbox_path in
  dirs w !! index_path = None →
  index_documents mbox = Raise e →
  ∃ docs,
    __get_index mbox mbox_path results_folder schema reindex w =
    (Raise e,
     add_trace ([Makedirs index_path; CreateIn index_path schema; OpenDir index_path] ++
                (AddDocument <$> docs))
       (set_dirs (built_dirs index_path (mkIndexData schema [])) w)) ∧
    ∀ (i : nat) message doc,
      mbox !! i = Some message → docs !! i = Some doc → index_document message = Ok doc.
Proof.
  intros index_path Hdir Hdocs. unfold __get_index. fold index_path. clearbody index_path.
  destruct w as [d f m c t]. simpl in Hdir.
  run_world. repeat (rewrite ?Hdir, ?lookup_insert_eq; simpl).
  match goal with |- context [add_documents mbox [] ?W] =>
    destruct (add_documents_run mbox [] W) as (docs & Hw & Hlookup);
    destruct (add_documents_raise mbox [] e W Hdocs) as [w' Hrun]
  end.
  rewrite Hrun in Hw |- *. simpl in Hw. subst w'. exists docs. split; [|done].
  f_equal. apply World_eq; autorewrite with world; try done.
  - unfold built_dirs. by rewrite !insert_insert_eq.
  - by rewrite <- !app_assoc.
Qed.

Lemma omap_added_document (docs : list Document) :
  omap added_document (AddDocument <$> docs) = docs.
Proof. induction docs as [|doc docs IH]; [done|]. simpl. by f_equal. Qed.

Lemma documents_added_app (before events : list Event) :
  documents_added before (before ++ events) = omap added_document events.
Proof. unfold documents_added. by rewrite drop_app_length. Qed.

Lemma documents_added_same (before : list Event) : documents_added before before = [].
Proof. unfold documents_added. by rewrite drop_all. Qed.

(** The documents of a run that finds no index directory. *)
Lemma get_index_fresh_documents (mbox : list Message) (mbox_path results_folder : string)
    (schema : Schema) (reindex : bool) (w : World) :
  let index_path := index_path_of results_folder mbox_path in
  let run := __get_index mbox mbox_path results_folder schema reindex w in
  dirs w !! index_path = None →
  ∃ events docs,
    trace run.2 = trace w ++ events ∧
    omap added_document events = docs ∧
    (∀ (i : nat) message doc,
       mbox !! i = Some message → docs !! i = Some doc → index_document message = Ok doc) ∧
    ∀ ix, run.1 = Ok ix →
          length docs = length mbox ∧
          dirs run.2 !! ix = Some (Some (mkIndexData schema docs)).
Proof.
  intros index_path run Hdir. subst run.
  destruct (index_documents mbox) as [docs|e] eqn:Hdocs.
  - rewrite (get_index_fresh _ _ _ _ _ docs) by done. fold index_path.
    destruct (index_documents_lookup _ _ Hdocs) as [Hlen Hlookup].
    exists (build_events index_path schema docs), docs. split; [done|]. split.
    { unfold build_events. rewrite !omap_app, omap_added_document.
      exact (app_nil_r docs). }
    split; [done|]. intros ix [= <-]. split; [done|].
    autorewrite with world. apply lookup_insert_eq.
  - destruct (get_index_fresh_fails mbox mbox_path results_folder schema reindex e w)
      as (docs & -> & Hlookup); [done..|]. fold index_path.
    eexists _, docs. split; [done|]. split.
    { by rewrite omap_app, omap_added_document. }
    split; [done|]. discriminate.
Qed.

(** C10.  Whenever [__get_index] hands documents to the index (on a first
    build, on a rebuild with [reindex], and also in a build that stops on a
    later message), the document of a message without a [message-id]
    header stores the string [None] as its identifier, so every output row
    made from such a document is the artifact followed by [None]: two such
    messages cannot be told apart.  A run that returns has either reused a
    valid index, and added no document, or committed to the index exactly
    one document for each message. *)
Theorem get_index_missing_message_id (mbox : list Message)
    (mbox_path results_folder : string) (schema : Schema) (reindex : bool) (w : World) :
  let index_path := index_path_of results_folder mbox_path in
  let run := __get_index mbox mbox_path results_folder schema reindex w in
  let docs := documents_added (trace w) (trace run.2) in
  (∀ (i : nat) message doc,
     mbox !! i = Some message → docs !! i = Some doc →
     Email.getitem message "message-id" = None →
     messageID doc = "None" ∧
     ∀ artifact : Key, result_tuple artifact doc = [artifact.1; artifact.2; Some "None"]) ∧
  (∀ ix, run.1 = Ok ix →
     match reindex, dirs w !! index_path with
     | false, Some (Some data) => docs = [] ∧ dirs run.2 !! ix = Some (Some data)
     | _, _ => length docs = length mbox ∧
               dirs run.2 !! ix = Some (Some (mkIndexData schema docs))
     end).
Proof.
  intros index_path run docs.
  assert (∀ docs' : list Document,
            (∀ (i : nat) message doc, mbox !! i = Some message → docs' !! i = Some doc →
                                      index_document message = Ok doc) →
            ∀ (i : nat) message doc,
              mbox !! i = Some message → docs' !! i = Some doc →
              Email.getitem message "message-id" = None →
              messageID doc = "None" ∧
              ∀ artifact : Key, result_tuple artifact doc = [artifact.1; artifact.2; Some "None"])
    as Hnone.
  { intros docs' Hlookup i message doc Hmessage Hdoc Hmissing.
    assert (messageID doc = "None") as Hid.
    { rewrite (index_document_message_id message doc) by eauto. by rewrite Hmissing. }
    split; [done|]. intros artifact. unfold result_tuple. by rewrite Hid. }
  subst docs run. destruct (dirs w !! index_path) as [old|] eqn:Hdir.
  - destruct reindex.
    + rewrite (get_index_reindex_removes _ _ _ _ old) by done. fold index_path.
      destruct (get_index_fresh_documents mbox mbox_path results_folder schema true
                  (record_event (Rmtree index_path) (rmtree_world index_path w)))
        as (events & docs & Htrace & Hdocs & Hlookup & Hok).
      { apply lookup_remove_tree_in. by left. }
      rewrite Htrace. autorewrite with world.
      rewrite <- app_assoc, documents_added_app, omap_app, Hdocs.
      change (omap added_document [Rmtree index_path] ++ docs) with docs.
      split; [by apply Hnone|]. intros ix Hix. by apply Hok.
    + destruct old as [data|].
      * rewrite (get_index_reuse _ _ _ _ data) by done. simpl.
        rewrite documents_added_app. split; [by intros i message doc _ Hdoc|].
        by intros ix [= <-].
      * rewrite get_index_stale_fails by done. simpl. rewrite documents_added_same.
        split; [by intros i message doc _ Hdoc|]. discriminate.
  - destruct (get_index_fresh_documents mbox mbox_path results_folder schema reindex w)
      as (events & docs & Htrace & Hdocs & Hlookup & Hok); [done|].
    rewrite Htrace, documents_added_app, Hdocs.
    split; [by apply Hnone|]. intros ix Hix. destruct reindex; by apply Hok.
Qed.

(** A rebuild of the index of the sample archive, two of whose three
    messages have no identifier. *)
Lemma get_index_missing_message_id_witness :
  let run := __get_index [message_a; message_b; message_c] "lists/dev.mbox" "res"
                         parse_schema true indexed_world in
  let docs := documents_added (trace indexed_world) (trace run.2) in
  (∀ (i : nat) message doc,
     [message_a; message_b; message_c] !! i = Some message → docs !! i = Some doc →
     Email.getitem message "message-id" = None →
     messageID doc = "None" ∧
     ∀ artifact : Key, result_tuple artifact doc = [artifact.1; artifact.2; Some "None"]) ∧
  (∀ ix, run.1 = Ok ix →
     length docs = length [message_a; message_b; message_c] ∧
     dirs run.2 !! ix = Some (Some (mkIndexData parse_schema docs))).
Proof.
  exact (get_index_missing_message_id [message_a; message_b; message_c]
           "lists/dev.mbox" "res" parse_schema true indexed_world).
Defined.

(** ** The output table *)

Section Output.

Variable Query : Type.
Variable query_parser_parse : Schema → string → Query.
Variable searcher_search : list Document → Query → list Document.

Abbreviation parse_search' := (parse_search Query query_parser_parse searcher_search).
Abbreviation parse' := (parse Query query_parser_parse searcher_search).
Abbreviation parse_execute' := (__parse_execute Query query_parser_parse searcher_search).

Lemma parse_run (mbox_name results_folder : string)
    (include_filepath files_as_artifacts reindex append_result : bool) (w : World) :
  parse' mbox_name results_folder include_filepath files_as_artifacts reindex append_result w =
  match parse_search' mbox_name results_folder include_filepath files_as_artifacts reindex w with
  | (Ok csv_data, w1) =>
    write_to_csv
      (OsPath.join results_folder [output_filename files_as_artifacts include_filepath])
      (parse_result append_result csv_data) append_result w1
  | (Raise e, w1) => (Raise e, w1)
  end.
Proof. reflexivity. Qed.

(** C8.  The header is among the lines to write exactly when
    [append_result] is false.  When a run that creates the output file is
    followed by a run that appends to it (same results folder, same modes),
    the file holds the header, then the rows of the first run, then the
    rows of the second: its row count is that of the first file plus the
    rows of the second run, and the second run adds no header. *)
Theorem parse_twice_one_header (mbox1 mbox2 results_folder : string)
    (include_filepath files_as_artifacts reindex1 reindex2 : bool) (w0 w1 w2 : World) :
  let output_file :=
    OsPath.join results_folder [output_filename files_as_artifacts include_filepath] in
  parse' mbox1 results_folder include_filepath files_as_artifacts reindex1 false w0
    = (Ok (), w1) →
  parse' mbox2 results_folder include_filepath files_as_artifacts reindex2 true w1
    = (Ok (), w2) →
  ∃ rows1 rows2 : list (list Line),
    (parse_search' mbox1 results_folder include_filepath files_as_artifacts reindex1 w0).1
      = Ok rows1 ∧
    (parse_search' mbox2 results_folder include_filepath files_as_artifacts reindex2 w1).1
      = Ok rows2 ∧
    parse_result false rows1 = header :: concat rows1 ∧
    parse_result true rows2 = concat rows2 ∧
    files w1 !! output_file = Some (writerow <$> header :: concat rows1) ∧
    files w2 !! output_file
      = Some ((writerow <$> header :: concat rows1) ++ (writerow <$> concat rows2)) ∧
    ∀ file1 file2,
      files w1 !! output_file = Some file1 → files w2 !! output_file = Some file2 →
      length file2 = (length file1 + length (concat rows2))%nat.
Proof.
  intros output_file Hrun1 Hrun2. rewrite parse_run in Hrun1, Hrun2.
  fold output_file in Hrun1, Hrun2.
  pose proof (parse_search_output_file Query query_parser_parse searcher_search
                mbox2 results_folder include_filepath files_as_artifacts reindex2
                files_as_artifacts include_filepath w1)
    as [Hfiles _].
  fold output_file in Hfiles.
  destruct (parse_search' mbox1 _ _ _ _ w0) as [[rows1|e1] w0']; [|discriminate Hrun1].
  destruct (parse_search' mbox2 _ _ _ _ w1) as [[rows2|e2] w1']; [|discriminate Hrun2].
  cbn [snd] in Hfiles.
  unfold write_to_csv, modify in Hrun1, Hrun2.
  injection Hrun1 as Hw1. injection Hrun2 as Hw2.
  assert (files w1 !! output_file = Some (writerow <$> header :: concat rows1)) as Hfile1.
  { rewrite <- Hw1, files_record_event, files_set_files. apply lookup_insert_eq. }
  assert (files w2 !! output_file
          = Some ((writerow <$> header :: concat rows1) ++ (writerow <$> concat rows2)))
    as Hfile2.
  { rewrite <- Hw2, files_record_event, files_set_files, lookup_insert_eq, Hfiles, Hfile1.
    reflexivity. }
  exists rows1, rows2.
  do 6 (split; [done|]).
  intros file1 file2 H1 H2.
  assert (file1 = writerow <$> header :: concat rows1) as -> by congruence.
  assert (file2 = (writerow <$> header :: concat rows1) ++ (writerow <$> concat rows2))
    as -> by congruence.
  by rewrite length_app, (length_fmap writerow (concat rows2)).
Qed.

(** *** The pool *)

Lemma parse_execute_world (artifact : Key) (schema : Schema) (my_index : string)
    (include_filepath : bool) (w : World) :
  (parse_execute' artifact schema my_index include_filepath w).2 = w.
Proof.
  unfold __parse_execute, index_searcher, gets, raise, mbind, M_bind, mret, M_ret.
  by destruct (dirs w !! my_index) as [[data|]|].
Qed.

Lemma run_tasks_world {A B : Type} (f : A → M B) (xs : list A) (w : World) :
  (∀ x w', (f x w').2 = w') → (run_tasks f xs w).2 = w.
Proof.
  intros Hf. induction xs as [|x xs IH]; [done|].
  simpl. unfold mbind, M_bind. specialize (Hf x w).
  destruct (f x w) as [[y|e] w1]; simpl in Hf; subst w1; [|done].
  destruct (run_tasks f xs w) as [[ys|e] w1]; simpl in IH; by subst w1.
Qed.

(** The search phase is the setup followed by the call of the pool with
    one worker less than the machine has cores. *)
Lemma parse_search_setup (mbox_name results_folder : string)
    (include_filepath files_as_artifacts reindex : bool) (w : World) :
  parse_search' mbox_name results_folder include_filepath files_as_artifacts reindex w =
  match parse_setup mbox_name results_folder files_as_artifacts reindex w with
  | (Ok (ix, artifacts), w2) =>
    joblib_Parallel (cpu_count w - 1)
      (λ commit, parse_execute' commit parse_schema ix include_filepath)
      (elements artifacts) w2
  | (Raise e, w2) => (Raise e, w2)
  end.
Proof.
  unfold parse_search, parse_setup.
  rewrite (M_bind_Ok _ _ _ _ _ (mailbox_mbox_run mbox_name w)).
  rewrite (M_bind_Ok _ _ _ _ _ (mailbox_mbox_run mbox_name w)).
  destruct (keeps_outside_get_index (default [] (mboxes w !! mbox_name)) mbox_name
              results_folder parse_schema reindex (mbox_opened mbox_name w))
    as (_ & _ & Hcpu1).
  destruct (__get_index _ _ _ _ _ (mbox_opened mbox_name w)) as [[ix|e] w1] eqn:Hix;
    [|by rewrite !(M_bind_Raise _ _ _ _ _ Hix)].
  rewrite !(M_bind_Ok _ _ _ _ _ Hix).
  destruct (keeps_get_artifacts results_folder files_as_artifacts w1) as (_ & _ & Hcpu2).
  destruct (__get_artifacts results_folder files_as_artifacts w1)
    as [[artifacts|e] w2] eqn:Hartifacts;
    [|by rewrite !(M_bind_Raise _ _ _ _ _ Hartifacts)].
  rewrite !(M_bind_Ok _ _ _ _ _ Hartifacts).
  simpl in Hcpu1, Hcpu2. rewrite cpu_count_mbox_opened in Hcpu1.
  unfold gets, mbind at 1, M_bind at 1, mret, M_ret, parse_n_jobs. cbn [fst snd].
  by rewrite Hcpu2, Hcpu1.
Qed.

(** What the call of the pool does: the request is recorded, a request
    for no worker is refused, and the tasks leave the world as it is. *)
Lemma joblib_Parallel_run (n_jobs : Z) (ix : string) (include_filepath : bool)
    (artifacts : list Key) (w : World) :
  joblib_Parallel n_jobs (λ commit, parse_execute' commit parse_schema ix include_filepath)
                  artifacts w =
  ((if n_jobs =? 0 then Raise ValueError
    else (run_tasks (λ commit, parse_execute' commit parse_schema ix include_filepath)
                    artifacts (record_event (Parallel n_jobs) w)).1),
   record_event (Parallel n_jobs) w).
Proof.
  unfold joblib_Parallel, modify, raise, mbind, M_bind.
  destruct (n_jobs =? 0); [done|].
  rewrite <- (run_tasks_world (λ commit, parse_execute' commit parse_schema ix include_filepath)
                artifacts (record_event (Parallel n_jobs) w)) at 3
    by (intros; apply parse_execute_world).
  by destruct (run_tasks _ _ _).
Qed.

(** C3 (amended).  [parse] asks the pool for workers once, when the index
    and the artifacts are there, and for exactly (cores - 1) of them; there
    is no guard.  The number asked for is at least 1 exactly when the
    machine has two cores or more.  On a single-core machine [parse] always
    ends on an exception and leaves the output table as it was: where the
    pool is reached, 0 workers are asked for, the pool raises [ValueError]
    and no query is run.  On every other machine the tasks are run. *)
Theorem parse_worker_count (mbox_name results_folder : string)
    (include_filepath files_as_artifacts reindex append_result : bool) (w : World) :
  let run := parse' mbox_name results_folder include_filepath files_as_artifacts reindex
                    append_result w in
  let search := parse_search' mbox_name results_folder include_filepath files_as_artifacts
                              reindex w in
  let setup := parse_setup mbox_name results_folder files_as_artifacts reindex w in
  let output_file :=
    OsPath.join results_folder [output_filename files_as_artifacts include_filepath] in
  let n_jobs := cpu_count w - 1 in
  (∀ ix artifacts w2, setup = (Ok (ix, artifacts), w2) →
     ∃ later, trace run.2 = trace w2 ++ Parallel n_jobs :: later ∧
              ∀ n, Parallel n ∉ later) ∧
  (∀ e w2, setup = (Raise e, w2) → run = (Raise e, w2)) ∧
  (1 ≤ n_jobs ↔ 2 ≤ cpu_count w) ∧
  (cpu_count w = 1 →
   (∃ e, run.1 = Raise e) ∧
   files run.2 !! output_file = files w !! output_file ∧
   ∀ ix artifacts w2, setup = (Ok (ix, artifacts), w2) →
                      run = (Raise ValueError, record_event (Parallel 0) w2)) ∧
  (cpu_count w ≠ 1 →
   ∀ ix artifacts w2, setup = (Ok (ix, artifacts), w2) →
     search = run_tasks (λ commit, parse_execute' commit parse_schema ix include_filepath)
                        (elements artifacts) (record_event (Parallel n_jobs) w2)).
Proof.
  intros run search setup output_file n_jobs.
  assert (search =
          match setup with
          | (Ok (ix, artifacts), w2) =>
            ((if n_jobs =? 0 then Raise ValueError
              else (run_tasks
                      (λ commit, parse_execute' commit parse_schema ix include_filepath)
                      (elements artifacts) (record_event (Parallel n_jobs) w2)).1),
             record_event (Parallel n_jobs) w2)
          | (Raise e, w2) => (Raise e, w2)
          end) as Hsearch.
  { subst search setup. rewrite parse_search_setup.
    destruct (parse_setup _ _ _ _ w) as [[[ix artifacts]|e] w2]; [|done].
    apply joblib_Parallel_run. }
  assert (run = match search with
                | (Ok csv_data, w1) =>
                  write_to_csv output_file (parse_result append_result csv_data)
                               append_result w1
                | (Raise e, w1) => (Raise e, w1)
                end) as Hrun by apply parse_run.
  pose proof (parse_search_output_file Query query_parser_parse searcher_search
                mbox_name results_folder include_filepath files_as_artifacts reindex
                files_as_artifacts include_filepath w) as [Hfiles _].
  fold search output_file in Hfiles. cbv zeta in Hfiles.
  clearbody run search setup.
  split; [|split; [|split; [subst n_jobs; lia|split]]].
  - intros ix artifacts w2 Hsetup. rewrite Hsetup in Hsearch. rewrite Hrun, Hsearch.
    destruct (if n_jobs =? 0 then _ else _) as [csv_data|e].
    + eexists [_]. split; [unfold write_to_csv, modify; simpl; by rewrite <- app_assoc|].
      intros n Hn. apply list_elem_of_singleton in Hn. discriminate Hn.
    + exists []. split; [done|]. intros n Hn. by apply elem_of_nil in Hn.
  - intros e w2 Hsetup. rewrite Hsetup in Hsearch. by rewrite Hrun, Hsearch.
  - intros Hcpu. assert ((n_jobs =? 0) = true) as Hzero by (subst n_jobs; lia).
    assert (n_jobs = 0) as Hzero' by (subst n_jobs; lia).
    rewrite Hzero in Hsearch.
    assert (∃ e w1, search = (Raise e, w1)) as (e & w1 & Hraise).
    { rewrite Hsearch. destruct setup as [[[ix artifacts]|e] w2]; by eauto. }
    rewrite Hraise in Hrun, Hfiles. simpl in Hfiles. rewrite Hrun.
    split; [by exists e|]. split; [done|].
    intros ix artifacts w2 Hsetup. rewrite Hsetup, Hzero' in Hsearch. congruence.
  - intros Hcpu ix artifacts w2 Hsetup. rewrite Hsetup in Hsearch. rewrite Hsearch.
    destruct (n_jobs =? 0) eqn:Hzero; [subst n_jobs; lia|].
    pose proof (run_tasks_world
                  (λ commit, parse_execute' commit parse_schema ix include_filepath)
                  (elements artifacts) (record_event (Parallel n_jobs) w2)
                  (λ commit w', parse_execute_world commit parse_schema ix include_filepath w'))
      as Hworld.
    destruct (run_tasks _ _ _) as [outcome w3]. simpl in Hworld. by subst w3.
Qed.

End Output.

(** The output table after the two sample runs. *)
Example sample_output_table :
  files after_second_run !! "res/mboxparsing.list" =
  Some [ ["file"; "artifact"; "messageID"];
         ["src/parser.c"; "parse_expr"; "<a@example.org>"];
         ["src/parser.c"; "parse_expr"; "<a@example.org>"] ].
Proof. vm_compute. reflexivity. Qed.

(** The two sample runs. *)
Lemma parse_twice_one_header_witness :
  ∃ rows1 rows2 : list (list Line),
    (parse_search string (λ _ text, text) sample_search
       "lists/dev.mbox" "res" false false false sample_world).1 = Ok rows1 ∧
    (parse_search string (λ _ text, text) sample_search
       "lists/dev.mbox" "res" false false false after_first_run).1 = Ok rows2 ∧
    parse_result false rows1 = header :: concat rows1 ∧
    parse_result true rows2 = concat rows2 ∧
    files after_first_run !! OsPath.join "res" [output_filename false false]
      = Some (writerow <$> header :: concat rows1) ∧
    files after_second_run !! OsPath.join "res" [output_filename false false]
      = Some ((writerow <$> header :: concat rows1) ++ (writerow <$> concat rows2)) ∧
    ∀ file1 file2,
      files after_first_run !! OsPath.join "res" [output_filename false false] = Some file1 →
      files after_second_run !! OsPath.join "res" [output_filename false false] = Some file2 →
      length file2 = (length file1 + length (concat rows2))%nat.
Proof.
  apply (parse_twice_one_header string (λ _ text, text) sample_search
           "lists/dev.mbox" "lists/dev.mbox" "res" false false false false
           sample_world after_first_run after_second_run).
  - vm_compute. reflexivity.
  - vm_compute. reflexivity.
Defined.

(** C3 (as stated, refuted).  On a machine with one core the number of
    workers asked for is 0, not at least 1, and the run ends on joblib's
    [ValueError] before any query: no output table is written. *)
Lemma single_core_no_worker :
  ¬ (1 ≤ parse_n_jobs (cpu_count single_core_world)) ∧
  (sample_parse "lists/dev.mbox" "res" false false false false single_core_world).1
    = Raise ValueError ∧
  files (sample_parse "lists/dev.mbox" "res" false false false false single_core_world).2
    !! "res/mboxparsing.list" = None.
Proof. split; [by vm_compute|]. split; vm_compute; reflexivity. Qed.

Lemma single_core_setup :
  parse_setup "lists/dev.mbox" "res" false false single_core_world =
  (Ok ("res/mbox-index/dev.mbox",
       list_to_set (key_of_pair false <$> table_pairs sample_commits)),
   single_core_ready).
Proof.
  unfold parse_setup.
  erewrite M_bind_Ok by apply mailbox_mbox_run.
  erewrite M_bind_Ok by (by apply (get_index_fresh _ _ _ _ _ sample_docs)).
  erewrite M_bind_Ok; [reflexivity|].
  apply get_artifacts_ok; [reflexivity|]. intros E. discriminate E.
Qed.

(** The sample archive on a single core: the pool is reached, asked for no
    worker, and refuses. *)
Lemma parse_worker_count_witness :
  let run := parse string (λ _ text, text) sample_search
                   "lists/dev.mbox" "res" false false false false single_core_world in
  let output_file := OsPath.join "res" [output_filename false false] in
  (∃ later, trace run.2 = trace single_core_ready
                          ++ Parallel (cpu_count single_core_world - 1) :: later ∧
            ∀ n, Parallel n ∉ later) ∧
  (1 ≤ cpu_count single_core_world - 1 ↔ 2 ≤ cpu_count single_core_world) ∧
  (∃ e, run.1 = Raise e) ∧
  files run.2 !! output_file = files single_core_world !! output_file ∧
  run = (Raise ValueError, record_event (Parallel 0) single_core_ready).
Proof.
  intros run output_file.
  destruct (parse_worker_count string (λ _ text, text) sample_search
              "lists/dev.mbox" "res" false false false false single_core_world)
    as (Hpool & _ & Hcount & Hsingle & _).
  destruct (Hsingle eq_refl) as (Hraise & Hfiles & Hvalue).
  split; [exact (Hpool _ _ _ single_core_setup)|].
  split; [exact Hcount|]. split; [exact Hraise|]. split; [exact Hfiles|].
  exact (Hvalue _ _ _ single_core_setup).
Defined.

(** ** The query text

    [__parse_execute] embeds the two components of the key in the query
    text as they are.  What the text means is left to the query parser. *)

Lemma query_text_filepath (artifact : Key) :
  query_text artifact true =
  dquote +:+ Py.str_of artifact.1 +:+ dquote +:+ " AND " +:+ query_text artifact false.
Proof. reflexivity. Qed.

(** A key whose artifact name holds quotation marks can yield the very text
    that another key yields together with its file path. *)
Lemma query_text_not_escaped (file artifact : string) (other : option string) :
  query_text (other, Some (file +:+ dquote +:+ " AND " +:+ dquote +:+ artifact)) false =
  query_text (Some file, Some artifact) true.
Proof.
  unfold query_text. simpl. by rewrite !string_app_assoc.
Qed.

(** Whether adding the file path narrows the hits is a property of the
    engine: it holds for an engine that returns every document, and fails
    for one that returns the documents only when the text holds [AND]. *)
Lemma filepath_narrows_some_engine :
  filepath_narrows unit (λ _ _, ()) (λ docs _, docs).
Proof.
  intros artifact schema my_index w with_path without_path.
  unfold __parse_execute, index_searcher, mbind, M_bind, gets, raise, mret, M_ret.
  destruct (dirs w !! my_index) as [[data|]|]; simpl; try discriminate.
  by intros [= <-] [= <-].
Qed.

Lemma filepath_narrows_not_every_engine :
  ¬ filepath_narrows string (λ _ text, text)
      (λ docs text, if Py.contains " AND " text then docs else []).
Proof.
  intros H.
  specialize (H (Some "src/parser.c", Some "parse_expr") parse_schema
                "res/mbox-index/dev.mbox" after_first_run).
  vm_compute in H.
  specialize (H _ _ eq_refl eq_refl (Some "<a@example.org>") (list_elem_of_here _ _)).
  inversion H.
Qed.

(** * Further properties of the code *)

(** ** Body extraction *)

(** The outcome of [__mbox_getbody], read off the last textual part. *)
Lemma mbox_getbody_of_last (message : Message) :
  __mbox_getbody message =
  match last_text (Email.walk message) with
  | Some (Single _ _ b) => Ok (Py.decode_replace b)
  | _ => Raise TypeError
  end.
Proof.
  unfold __mbox_getbody. rewrite getbody_search_last.
  by destruct (last_text (Email.walk message)) as [[h c b|h c ps]|].
Qed.

(** X1.  [__mbox_getbody] returns a body exactly when the last textual part
    of the walk is a single part, and the body is then its decoded payload;
    in every other case it raises, and the exception is [TypeError]. *)
Theorem mbox_getbody_returns_iff (message : Message) :
  (∀ body, __mbox_getbody message = Ok body ↔
           ∃ h c b, last_text (Email.walk message) = Some (Single h c b) ∧
                    body = Py.decode_replace b) ∧
  (∀ e, __mbox_getbody message = Raise e → e = TypeError).
Proof.
  rewrite mbox_getbody_of_last.
  destruct (last_text (Email.walk message)) as [[h c b|h c ps]|].
  - split.
    + intros body. split.
      * intros [= <-]. by exists h, c, b.
      * by intros (h' & c' & b' & [= _ _ <-] & ->).
    + discriminate.
  - split.
    + intros body. split; [discriminate|]. by intros (h' & c' & b' & [=] & _).
    + by intros e [= <-].
  - split.
    + intros body. split; [discriminate|]. by intros (h' & c' & b' & [=] & _).
    + by intros e [= <-].
Qed.

(** X2.  The nested loops of [__mbox_getbody] find what a single pass over
    [message.walk()] finds: walking every multipart part again never
    changes the body. *)
Theorem mbox_getbody_single_pass (message : Message) :
  getbody_search message = foldl take_text Py.VNone (Email.walk message).
Proof. by rewrite getbody_search_last, foldl_take_text. Qed.

Lemma decode_replace_ascii (b : string) :
  is_ascii b = true → Py.decode_replace b = b.
Proof.
  induction b as [|c b IH]; [done|]. simpl.
  intros [Hc Hb]%andb_true_iff. rewrite Hc. by rewrite IH.
Qed.

(** X3.  When the part that is taken holds ASCII bytes only, the body is
    these bytes, unchanged. *)
Theorem mbox_getbody_ascii (message : Message) (h : list (string * string)) (c b : string) :
  last_text (Email.walk message) = Some (Single h c b) →
  is_ascii b = true →
  __mbox_getbody message = Ok b.
Proof.
  intros Hlast Hascii. unfold __mbox_getbody. rewrite getbody_search_last, Hlast. simpl.
  by rewrite decode_replace_ascii.
Qed.

(** A part three levels down, with a content type in capitals. *)
Lemma mbox_getbody_ascii_witness :
  last_text (Email.walk image_then_text) = Some (Single [] "TEXT/Plain" "deep body") ∧
  is_ascii "deep body" = true ∧
  __mbox_getbody image_then_text = Ok "deep body".
Proof.
  split; [reflexivity|]. split; [reflexivity|].
  apply (mbox_getbody_ascii image_then_text [] "TEXT/Plain" "deep body"); reflexivity.
Defined.

(** ** The index directory *)

Lemma add_documents_dirs (mbox : list Message) (buffer : list Document) (w : World) :
  dirs (add_documents mbox buffer w).2 = dirs w.
Proof.
  revert buffer w. induction mbox as [|message mbox IH]; intros buffer w; [done|].
  simpl. unfold lift. destruct (index_document message) as [doc|e].
  - erewrite M_bind_Ok by reflexivity. erewrite M_bind_Ok by reflexivity.
    by rewrite IH.
  - by erewrite M_bind_Raise by reflexivity.
Qed.

(** A run that returns leaves a valid index at the path it returns. *)
Lemma get_index_ok_valid (mbox : list Message) (mbox_path results_folder : string)
    (schema : Schema) (reindex : bool) (ix : string) (w w' : World) :
  __get_index mbox mbox_path results_folder schema reindex w = (Ok ix, w') →
  ix = index_path_of results_folder mbox_path ∧
  ∃ data, dirs w' !! ix = Some (Some data).
Proof.
  intros Hrun.
  destruct (dirs w !! index_path_of results_folder mbox_path) as [old|] eqn:Hdir.
  - destruct reindex.
    + rewrite (get_index_reindex_removes _ _ _ _ old) in Hrun by done.
      apply get_index_fresh_inv in Hrun as (docs & _ & -> & Hix);
        [by eauto|by apply lookup_remove_tree_in; left].
    + destruct old as [data|].
      * rewrite (get_index_reuse _ _ _ _ data) in Hrun by done.
        injection Hrun as <- <-. split; [done|]. by exists data.
      * rewrite get_index_stale_fails in Hrun by done. discriminate Hrun.
  - apply get_index_fresh_inv in Hrun as (docs & _ & -> & Hix); by eauto.
Qed.

Lemma index_document_ok_iff (message : Message) :
  (∃ doc, index_document message = Ok doc) ↔ has_text_body message.
Proof.
  unfold index_document, has_text_body. rewrite mbox_getbody_of_last.
  destruct (last_text (Email.walk message)) as [[h c b|h c ps]|].
  - rewrite Outcome_bind_Ok. split; [by eauto|]. intros _. by eexists.
  - rewrite Outcome_bind_Raise. split; [by intros [doc [=]]|]. by intros (? & ? & ? & [=]).
  - rewrite Outcome_bind_Raise. split; [by intros [doc [=]]|]. by intros (? & ? & ? & [=]).
Qed.

Lemma index_documents_ok_iff (mbox : list Message) :
  (∃ docs, index_documents mbox = Ok docs) ↔ Forall has_text_body mbox.
Proof.
  induction mbox as [|message mbox IH].
  - split; [by constructor|by exists []].
  - rewrite Forall_cons, <- IH, <- index_document_ok_iff. simpl.
    destruct (index_document message) as [doc|e].
    + rewrite Outcome_bind_Ok. destruct (index_documents mbox) as [docs|e'].
      * rewrite Outcome_bind_Ok. split; [by eauto|]. intros _. by eexists.
      * rewrite Outcome_bind_Raise. split; [by intros [docs [=]]|].
        by intros [_ [docs [=]]].
    + rewrite Outcome_bind_Raise. split; [by intros [docs [=]]|].
      by intros [[doc [=]] _].
Qed.

Lemma index_documents_raise_TypeError (mbox : list Message) (e : Exn) :
  index_documents mbox = Raise e → e = TypeError.
Proof.
  induction mbox as [|message mbox IH]; [discriminate|]. simpl. unfold index_document.
  rewrite mbox_getbody_of_last.
  destruct (last_text (Email.walk message)) as [[h c b|h c ps]|];
    rewrite ?Outcome_bind_Ok, ?Outcome_bind_Raise; try by intros [= <-].
  destruct (index_documents mbox) as [docs|e']; [discriminate|].
  rewrite Outcome_bind_Raise. intros [= <-]. by apply IH.
Qed.

Lemma lookup_make_missing (heads : list string) (d : gmap string (option IndexData))
    (p : string) :
  make_missing heads d !! p =
  match d !! p with
  | Some x => Some x
  | None => if decide (p ∈ heads) then Some None else None
  end.
Proof.
  induction heads as [|head heads IH].
  - change (make_missing [] d) with d. destruct (d !! p); [done|].
    by destruct (decide (p ∈ [])) as [?%elem_of_nil|].
  - change (make_missing (head :: heads) d) with
      (match make_missing heads d !! head with
       | Some _ => make_missing heads d
       | None => <[head := None]> (make_missing heads d)
       end).
    destruct (decide (p = head)) as [->|Hne].
    + destruct (make_missing heads d !! head) as [x|] eqn:Hhead.
      * rewrite Hhead. rewrite IH in Hhead. destruct (d !! head); [done|].
        rewrite decide_True by left. by destruct (decide (head ∈ heads)); simplify_eq.
      * rewrite lookup_insert_eq. rewrite IH in Hhead. destruct (d !! head); [done|].
        by rewrite decide_True by left.
    + assert ((match make_missing heads d !! head with
               | Some _ => make_missing heads d
               | None => <[head := None]> (make_missing heads d)
               end) !! p = make_missing heads d !! p) as ->.
      { destruct (make_missing heads d !! head); [done|]. by rewrite lookup_insert_ne. }
      rewrite IH. destruct (d !! p); [done|].
      destruct (decide (p ∈ heads)) as [Hin|Hout].
      * by rewrite decide_True by by right.
      * rewrite decide_False; [done|]. intros [?|?]%elem_of_cons; done.
Qed.

(** The directories after a run, when the index directory did not exist. *)
Lemma get_index_fresh_dirs (mbox : list Message) (mbox_path results_folder : string)
    (schema : Schema) (reindex : bool) (w : World) :
  let index_path := index_path_of results_folder mbox_path in
  dirs w !! index_path = None →
  ∃ data, dirs (__get_index mbox mbox_path results_folder schema reindex w).2
          = built_dirs index_path data (dirs w).
Proof.
  intros index_path Hdir. destruct (index_documents mbox) as [docs|e] eqn:Hdocs.
  - rewrite (get_index_fresh _ _ _ _ _ docs) by done. by eexists.
  - destruct (get_index_fresh_fails mbox mbox_path results_folder schema reindex e w)
      as (docs & -> & _); [done..|]. by eexists.
Qed.

(** A directory outside the index directory is as it was, unless it is a
    missing directory above the index directory, which was made. *)
Lemma get_index_frame (mbox : list Message) (mbox_path results_folder : string)
    (schema : Schema) (reindex : bool) (w : World) (p : string) :
  let index_path := index_path_of results_folder mbox_path in
  let w' := (__get_index mbox mbox_path results_folder schema reindex w).2 in
  ¬ in_tree index_path p →
  dirs w' !! p = dirs w !! p ∨
  (p ∈ OsPath.parents index_path ∧ dirs w !! p = None ∧ dirs w' !! p = Some None).
Proof.
  intros index_path w' Hp. subst w'.
  assert (p ≠ index_path) as Hne by (intros ->; apply Hp; by left).
  assert (∀ d data, built_dirs index_path data d !! p = d !! p ∨
                    (p ∈ OsPath.parents index_path ∧ d !! p = None ∧
                     built_dirs index_path data d !! p = Some None)) as Hbuilt.
  { intros d data. unfold built_dirs. rewrite lookup_insert_ne by done.
    rewrite lookup_make_missing. destruct (d !! p); [by left|].
    destruct (decide (p ∈ OsPath.parents index_path)); [by right|by left]. }
  destruct (dirs w !! index_path) as [old|] eqn:Hdir.
  - destruct reindex.
    + rewrite (get_index_reindex_removes _ _ _ _ old) by done. fold index_path.
      edestruct (get_index_fresh_dirs mbox mbox_path results_folder schema true)
        as [data ->]; [by apply lookup_remove_tree_in; left|].
      fold index_path. autorewrite with world.
      rewrite <- (lookup_remove_tree index_path p (dirs w)) by done. apply Hbuilt.
    + destruct old as [data|].
      * rewrite (get_index_reuse _ _ _ _ data) by done. by left.
      * rewrite get_index_stale_fails by done. by left.
  - edestruct (get_index_fresh_dirs mbox mbox_path results_folder schema reindex)
      as [data ->]; [done|].
    apply Hbuilt.
Qed.

(** X4.  Whatever it does and however it ends, [__get_index] leaves what
    is outside the index directory of its archive as it was: every table
    and every archive that is not below that directory, and every
    directory that is neither that directory nor below it, except that a
    missing directory above it has been made. *)
Theorem get_index_other_directories (mbox : list Message)
    (mbox_path results_folder : string) (schema : Schema) (reindex : bool)
    (w : World) (p : string) :
  let index_path := index_path_of results_folder mbox_path in
  let w' := (__get_index mbox mbox_path results_folder schema reindex w).2 in
  ¬ in_tree index_path p →
  (dirs w' !! p = dirs w !! p ∨
   (p ∈ OsPath.parents index_path ∧ dirs w !! p = None ∧ dirs w' !! p = Some None)) ∧
  files w' !! p = files w !! p ∧
  mboxes w' !! p = mboxes w !! p.
Proof.
  intros index_path w' Hp. split.
  - by apply get_index_frame.
  - destruct (keeps_outside_get_index mbox mbox_path results_folder schema reindex w)
      as (Hfiles & Hmboxes & _).
    split; [by apply Hfiles|by apply Hmboxes].
Qed.

(** A rebuild of the index of [lists/dev.mbox] in [nested_world] leaves the
    index directory of [lists/user.mbox] alone. *)
Lemma get_index_other_directories_witness :
  let index_path := index_path_of "res" "lists/dev.mbox" in
  let w' := (__get_index [message_a] "lists/dev.mbox" "res" parse_schema true
                         nested_world).2 in
  (dirs w' !! "res/mbox-index/user.mbox" = dirs nested_world !! "res/mbox-index/user.mbox" ∨
   ("res/mbox-index/user.mbox" ∈ OsPath.parents index_path ∧
    dirs nested_world !! "res/mbox-index/user.mbox" = None ∧
    dirs w' !! "res/mbox-index/user.mbox" = Some None)) ∧
  files w' !! "res/mbox-index/user.mbox" = files nested_world !! "res/mbox-index/user.mbox" ∧
  mboxes w' !! "res/mbox-index/user.mbox" = mboxes nested_world !! "res/mbox-index/user.mbox".
Proof.
  apply (get_index_other_directories [message_a] "lists/dev.mbox" "res" parse_schema true
           nested_world "res/mbox-index/user.mbox").
  intros [H|H]; vm_compute in H; discriminate H.
Defined.

(** In [nested_world] the index directory holds a folder and a table; the
    rebuild removes both, and the folder [res/mbox-index] above it, which
    was there, stays. *)
Example get_index_rebuild_nested :
  let w' := (__get_index [message_a] "lists/dev.mbox" "res" parse_schema true
                         nested_world).2 in
  dirs nested_world !! "res/mbox-index/dev.mbox/segments" = Some None ∧
  dirs w' !! "res/mbox-index/dev.mbox/segments" = None ∧
  files w' !! "res/mbox-index/dev.mbox/notes.list" = None ∧
  dirs w' !! "res/mbox-index" = Some None ∧
  dirs w' !! "res/mbox-index/dev.mbox"
    = Some (Some (mkIndexData parse_schema [mkDocument "<a@example.org>"
                                              "see parse_expr in src/parser.c"])).
Proof. vm_compute. repeat split; reflexivity. Qed.



(** The directories above the index directory of the sample archive. *)
Example sample_index_parents :
  OsPath.parents (index_path_of "res" "lists/dev.mbox") = ["res"; "res/mbox-index"].
Proof. reflexivity. Qed.

(** X6.  With [reindex] set, what the index directory held does not
    matter: the run, its outcome and the world it leaves are the same for
    every previous content of the directory. *)
Theorem get_index_reindex_any_content (mbox : list Message)
    (mbox_path results_folder : string) (schema : Schema)
    (old old' : option IndexData) (w : World) :
  let index_path := index_path_of results_folder mbox_path in
  dirs w !! index_path = Some old →
  __get_index mbox mbox_path results_folder schema true
              (set_dirs (insert index_path old') w) =
  __get_index mbox mbox_path results_folder schema true w.
Proof.
  intros index_path Hdir.
  rewrite (get_index_reindex_removes _ _ _ _ old' (set_dirs (insert index_path old') w))
    by (simpl; apply lookup_insert_eq).
  rewrite (get_index_reindex_removes _ _ _ _ old w) by done.
  f_equal. fold index_path. apply World_eq; autorewrite with world; try done.
  apply remove_tree_insert.
Qed.

(** A stale directory and a directory with the sample index rebuild alike. *)
Lemma get_index_reindex_any_content_witness :
  __get_index [message_a] "lists/dev.mbox" "res" parse_schema true
    (set_dirs (insert (index_path_of "res" "lists/dev.mbox")
                      (Some (mkIndexData parse_schema sample_docs))) stale_world) =
  __get_index [message_a] "lists/dev.mbox" "res" parse_schema true stale_world.
Proof.
  apply (get_index_reindex_any_content [message_a] "lists/dev.mbox" "res" parse_schema
           None (Some (mkIndexData parse_schema sample_docs)) stale_world).
  reflexivity.
Defined.





(** X9.  A valid index is reused as it is when [reindex] is false: the
    archive handed over is not read, the directories stay as they were, and
    what a search sees afterwards are the documents stored before. *)
Theorem get_index_reuse_ignores_archive (mbox : list Message)
    (mbox_path results_folder : string) (schema : Schema) (data : IndexData) (w : World) :
  let index_path := index_path_of results_folder mbox_path in
  dirs w !! index_path = Some (Some data) →
  ∃ w',
    __get_index mbox mbox_path results_folder schema false w = (Ok index_path, w') ∧
    dirs w' = dirs w ∧
    trace w' = trace w ++ [OpenDir index_path] ∧
    index_searcher index_path w' = (Ok (ix_docs data), w').
Proof.
  intros index_path Hdir. exists (record_event (OpenDir index_path) w).
  split; [by apply (get_index_reuse _ _ _ _ data)|]. repeat split.
  unfold index_searcher, gets, mbind, M_bind. simpl. by rewrite Hdir.
Qed.

(** The index of the sample archive, reused for an empty archive. *)
Lemma get_index_reuse_ignores_archive_witness :
  ∃ w',
    __get_index [] "lists/dev.mbox" "res" parse_schema false indexed_world
      = (Ok (index_path_of "res" "lists/dev.mbox"), w') ∧
    dirs w' = dirs indexed_world ∧
    trace w' = trace indexed_world ++ [OpenDir (index_path_of "res" "lists/dev.mbox")] ∧
    index_searcher (index_path_of "res" "lists/dev.mbox") w'
      = (Ok (ix_docs (mkIndexData parse_schema sample_docs)), w').
Proof.
  apply (get_index_reuse_ignores_archive [] "lists/dev.mbox" "res" parse_schema
           (mkIndexData parse_schema sample_docs) indexed_world).
  reflexivity.
Defined.

Lemma index_path_of_basename (results_folder mbox_path1 mbox_path2 : string) :
  OsPath.basename mbox_path1 = OsPath.basename mbox_path2 →
  index_path_of results_folder mbox_path1 = index_path_of results_folder mbox_path2.
Proof. unfold index_path_of. by intros ->. Qed.

(** X10.  The index directory is named after the base name of the archive
    alone: once the index of an archive is built, a run without [reindex]
    for another archive with the same base name is given that index, with
    its documents. *)
Theorem get_index_same_basename (mbox1 mbox2 : list Message)
    (mbox_path1 mbox_path2 results_folder : string) (schema : Schema) (reindex : bool)
    (ix : string) (w w' : World) :
  OsPath.basename mbox_path1 = OsPath.basename mbox_path2 →
  __get_index mbox1 mbox_path1 results_folder schema reindex w = (Ok ix, w') →
  ∃ w'',
    __get_index mbox2 mbox_path2 results_folder schema false w' = (Ok ix, w'') ∧
    dirs w'' = dirs w' ∧
    (index_searcher ix w'').1 = (index_searcher ix w').1.
Proof.
  intros Hbase Hrun.
  apply get_index_ok_valid in Hrun as (-> & data & Hix).
  rewrite (index_path_of_basename _ _ _ Hbase) in Hix |- *.
  exists (record_event (OpenDir (index_path_of results_folder mbox_path2)) w').
  split; [by apply (get_index_reuse _ _ _ _ data)|]. split; [done|].
  unfold index_searcher, gets, mbind, M_bind. simpl. by rewrite Hix.
Qed.

(** The archives [lists/dev.mbox] and [archive/dev.mbox]. *)
Lemma get_index_same_basename_witness :
  ∃ w'',
    __get_index [message_b] "archive/dev.mbox" "res" parse_schema false indexed_world
      = (Ok (index_path_of "res" "lists/dev.mbox"), w'') ∧
    dirs w'' = dirs indexed_world ∧
    (index_searcher (index_path_of "res" "lists/dev.mbox") w'').1
      = (index_searcher (index_path_of "res" "lists/dev.mbox") indexed_world).1.
Proof.
  apply (get_index_same_basename [message_a; message_b; message_c] [message_b]
           "lists/dev.mbox" "archive/dev.mbox" "res" parse_schema false
           (index_path_of "res" "lists/dev.mbox") sample_world indexed_world).
  - reflexivity.
  - vm_compute. reflexivity.
Defined.

(** ** The commit table *)

Lemma collect_artifacts_file_short (rows : list (list string)) (commit_set : gset Key) :
  ¬ Forall has_file_column rows →
  collect_artifacts true rows commit_set = Raise TypeError.
Proof.
  revert commit_set. induction rows as [|row rows IH]; intros commit_set Hshort.
  - destruct Hshort. constructor.
  - destruct row as [|x row].
    + apply IH. intros H. apply Hshort. constructor; [by left|done].
    + change (collect_artifacts true ((x :: row) :: rows) commit_set)
        with (key ← artifact_key true (dict_row commit_data_columns (x :: row));
              collect_artifacts true rows (commit_set ∪ {[ key ]})).
      rewrite artifact_key_file.
      destruct ((x :: row) !! 12%nat) as [file|] eqn:Hfile; [|done].
      rewrite Outcome_bind_Ok. apply IH. intros H. apply Hshort.
      constructor; [right; by eexists|done].
Qed.

Lemma get_artifacts_file_short (results_folder : string) (w : World)
    (rows : list (list string)) :
  files w !! OsPath.join results_folder ["commits.list"] = Some rows →
  ¬ Forall has_file_column rows →
  __get_artifacts results_folder true w = (Raise TypeError, w).
Proof.
  intros Hfile Hshort. unfold __get_artifacts, mbind, M_bind, gets. rewrite Hfile.
  unfold lift. by rewrite collect_artifacts_file_short.
Qed.

(** X11.  A non-empty row that stops before the [file] column is not
    rejected as such.  Without files-as-artifacts it gives a key with [None]
    for what is missing; with files-as-artifacts the whole extraction
    raises [TypeError], whatever the other rows hold. *)
Theorem get_artifacts_short_row (results_folder : string) (w : World)
    (rows : list (list string)) (row : list string) :
  files w !! OsPath.join results_folder ["commits.list"] = Some rows →
  row ∈ rows → row ≠ [] → row !! 12%nat = None →
  __get_artifacts results_folder true w = (Raise TypeError, w) ∧
  ∃ commit_set, __get_artifacts results_folder false w = (Ok commit_set, w) ∧
                (None, None) ∈ commit_set.
Proof.
  intros Hfile Hrow Hne Hshort. split.
  - apply (get_artifacts_file_short _ _ rows); [done|].
    rewrite Forall_forall. intros H. destruct (H row Hrow) as [?|[file Hsome]]; [done|].
    by rewrite Hshort in Hsome.
  - eexists. split; [by apply get_artifacts_ok|].
    apply elem_of_list_to_set, list_elem_of_fmap. exists (table_pair row). split.
    + assert (row !! 13%nat = None) as Hshort'.
      { apply lookup_ge_None. apply lookup_ge_None in Hshort. lia. }
      unfold table_pair, key_of_pair. by rewrite Hshort, Hshort'.
    + apply list_elem_of_fmap. exists row. split; [done|]. by apply list_elem_of_filter.
Qed.

(** A table whose second row has three fields. *)
Lemma get_artifacts_short_row_witness :
  __get_artifacts "res" true short_world = (Raise TypeError, short_world) ∧
  ∃ commit_set, __get_artifacts "res" false short_world = (Ok commit_set, short_world) ∧
                (None, None) ∈ commit_set.
Proof.
  apply (get_artifacts_short_row "res" short_world short_commits ["7"; "2017-03-02"; "Bob"]).
  - reflexivity.
  - apply list_elem_of_further, list_elem_of_here.
  - discriminate.
  - reflexivity.
Defined.

Lemma has_file_column_same_rows (rows1 rows2 : list (list string)) :
  (∀ row, row ≠ [] → row ∈ rows1 → row ∈ rows2) →
  Forall has_file_column rows2 → Forall has_file_column rows1.
Proof.
  rewrite !Forall_forall. intros Hsame H row Hrow.
  destruct (decide (row = [])) as [->|Hne]; [by left|]. apply H. by apply Hsame.
Qed.

Lemma table_pairs_same_rows (files_as_artifacts : bool) (rows1 rows2 : list (list string)) :
  (∀ row, row ≠ [] → row ∈ rows1 → row ∈ rows2) →
  ∀ key, key ∈ key_of_pair files_as_artifacts <$> table_pairs rows1 →
         key ∈ key_of_pair files_as_artifacts <$> table_pairs rows2.
Proof.
  intros Hsame key. unfold table_pairs. rewrite !list_elem_of_fmap.
  intros (pair & -> & Hpair). apply list_elem_of_fmap in Hpair as (row & -> & Hrow).
  apply list_elem_of_filter in Hrow as [Hne Hrow].
  exists (table_pair row). split; [done|]. apply list_elem_of_fmap. exists row.
  split; [done|]. apply list_elem_of_filter. split; [done|]. by apply Hsame.
Qed.

(** X12.  The result of [__get_artifacts] depends on the set of non-empty
    rows of the table only: the order of the rows, repeated rows and empty
    rows change neither the set returned nor the exception raised. *)
Theorem get_artifacts_rows_as_set (results_folder : string) (files_as_artifacts : bool)
    (w1 w2 : World) (rows1 rows2 : list (list string)) :
  files w1 !! OsPath.join results_folder ["commits.list"] = Some rows1 →
  files w2 !! OsPath.join results_folder ["commits.list"] = Some rows2 →
  (∀ row, row ≠ [] → (row ∈ rows1 ↔ row ∈ rows2)) →
  (__get_artifacts results_folder files_as_artifacts w1).1 =
  (__get_artifacts results_folder files_as_artifacts w2).1.
Proof.
  intros Hfile1 Hfile2 Hsame.
  assert (∀ row, row ≠ [] → row ∈ rows1 → row ∈ rows2) as H12 by (intros; by apply Hsame).
  assert (∀ row, row ≠ [] → row ∈ rows2 → row ∈ rows1) as H21 by (intros; by apply Hsame).
  destruct (decide (files_as_artifacts = true → Forall has_file_column rows1)) as [Hwf|Hshort].
  - rewrite (get_artifacts_ok _ _ _ rows1), (get_artifacts_ok _ _ _ rows2); try done.
    + simpl. f_equal. apply set_eq. intros key. rewrite !elem_of_list_to_set.
      split; by apply table_pairs_same_rows.
    + intros E. by apply (has_file_column_same_rows rows2 rows1), Hwf.
  - destruct files_as_artifacts; [|by destruct Hshort].
    rewrite (get_artifacts_file_short _ _ rows1), (get_artifacts_file_short _ _ rows2);
      try done.
    + intros H. apply Hshort. intros _. by apply (has_file_column_same_rows rows1 rows2).
    + intros H. by apply Hshort.
Qed.

(** The sample table and the shuffled one. *)
Lemma get_artifacts_rows_as_set_witness :
  (__get_artifacts "res" true sample_world).1 = (__get_artifacts "res" true shuffled_world).1.
Proof.
  apply (get_artifacts_rows_as_set "res" true sample_world shuffled_world
           sample_commits shuffled_commits).
  - reflexivity.
  - reflexivity.
  - intros row Hne. unfold sample_commits, shuffled_commits.
    rewrite !elem_of_cons, !elem_of_nil. tauto.
Defined.

(** X13.  On a table all of whose rows hold the [file] column, both modes
    return; the keys of the files-as-artifacts mode name the same files as
    the keys of the other mode, and there are at most as many of them. *)
Theorem get_artifacts_file_mode_fewer (results_folder : string) (w : World)
    (rows : list (list string)) :
  files w !! OsPath.join results_folder ["commits.list"] = Some rows →
  Forall has_file_column rows →
  ∃ by_file by_artifact : gset Key,
    __get_artifacts results_folder true w = (Ok by_file, w) ∧
    __get_artifacts results_folder false w = (Ok by_artifact, w) ∧
    (size by_file ≤ size by_artifact)%nat ∧
    ∀ file, (∃ artifact, (file, artifact) ∈ by_file) ↔
            (∃ artifact, (file, artifact) ∈ by_artifact).
Proof.
  intros Hfile Hwf. do 2 eexists.
  split; [by apply get_artifacts_ok|]. split; [by apply get_artifacts_ok|]. split.
  - rewrite !size_list_to_set_remove_dups. simpl. rewrite list_fmap_id.
    apply length_remove_dups_fmap.
  - intros file. simpl. rewrite list_fmap_id. split.
    + intros (artifact & Hin). apply elem_of_list_to_set, list_elem_of_fmap in Hin
        as ([file' artifact'] & [= -> ->] & Hin).
      exists artifact'. by apply elem_of_list_to_set.
    + intros (artifact & Hin). apply elem_of_list_to_set in Hin.
      exists (OsPath.basename <$> file). apply elem_of_list_to_set, list_elem_of_fmap.
      by exists (file, artifact).
Qed.

(** The sample table. *)
Lemma get_artifacts_file_mode_fewer_witness :
  ∃ by_file by_artifact : gset Key,
    __get_artifacts "res" true sample_world = (Ok by_file, sample_world) ∧
    __get_artifacts "res" false sample_world = (Ok by_artifact, sample_world) ∧
    (size by_file ≤ size by_artifact)%nat ∧
    ∀ file, (∃ artifact, (file, artifact) ∈ by_file) ↔
            (∃ artifact, (file, artifact) ∈ by_artifact).
Proof.
  apply (get_artifacts_file_mode_fewer "res" sample_world sample_commits).
  - reflexivity.
  - repeat apply Forall_cons_2; try apply Forall_nil_2;
      first [by left | right; by eexists].
Defined.

(** ** Searching and writing *)

Lemma hit_ids_result_tuple (artifact : Key) (hits : list Document) :
  hit_ids (result_tuple artifact <$> hits) = (λ r, Some (messageID r)) <$> hits.
Proof.
  unfold hit_ids. induction hits as [|r hits IH]; [done|].
  rewrite !fmap_cons, IH. done.
Qed.

Lemma join_single_inj (folder name1 name2 : string) :
  Py.startswith name1 "/" = false → Py.startswith name2 "/" = false →
  OsPath.join folder [name1] = OsPath.join folder [name2] → name1 = name2.
Proof.
  unfold OsPath.join. simpl. unfold OsPath.join2. intros -> ->.
  destruct (_ || _); intros H.
  - by apply (inj (String.app folder)) in H.
  - apply (inj (String.app folder)) in H. by apply (inj (String.app "/")) in H.
Qed.

Lemma run_tasks_Forall {A B : Type} (P : B → Prop) (f : A → M B) (xs : list A)
    (ys : list B) (w w' : World) :
  (∀ x w0 y w1, f x w0 = (Ok y, w1) → P y) →
  run_tasks f xs w = (Ok ys, w') → Forall P ys.
Proof.
  intros Hf. revert ys w w'. induction xs as [|x xs IH]; intros ys w w'; simpl.
  - intros [= <- _]. constructor.
  - unfold mbind, M_bind. destruct (f x w) as [[y|e] w1] eqn:Hy; [|discriminate].
    destruct (run_tasks f xs w1) as [[ys'|e] w2] eqn:Hys; [|discriminate].
    intros [= <- _]. constructor; [exact (Hf _ _ _ _ Hy)|exact (IH _ _ _ Hys)].
Qed.

Section Search.

Variable Query : Type.
Variable query_parser_parse : Schema → string → Query.
Variable searcher_search : list Document → Query → list Document.

Abbreviation execute := (__parse_execute Query query_parser_parse searcher_search).
Abbreviation search_phase := (parse_search Query query_parser_parse searcher_search).
Abbreviation parse_with := (parse Query query_parser_parse searcher_search).

Lemma parse_execute_hit_ids (artifact : Key) (schema : Schema) (my_index : string)
    (include_filepath : bool) (w : World) :
  outcome_map hit_ids (execute artifact schema my_index include_filepath w).1 =
  match dirs w !! my_index with
  | Some (Some data) =>
    Ok ((λ r, Some (messageID r)) <$>
        searcher_search (ix_docs data)
          (query_parser_parse schema (query_text artifact include_filepath)))
  | _ => Raise EmptyIndexError
  end.
Proof.
  unfold __parse_execute, index_searcher, gets, raise, mbind, M_bind, mret, M_ret.
  destruct (dirs w !! my_index) as [[data|]|]; simpl; [|done..].
  by rewrite hit_ids_result_tuple.
Qed.

(** X14.  The key is put into the query text as it is.  Searching an
    artifact name that holds [F" AND "A] without the file path therefore
    runs the very query of searching [A] together with the file path [F]:
    whatever the engine, the same messages are found. *)
Theorem parse_execute_quote_collision (file artifact : string) (other : option string)
    (schema : Schema) (my_index : string) (w : World) :
  outcome_map hit_ids
    (execute (other, Some (file +:+ dquote +:+ " AND " +:+ dquote +:+ artifact))
             schema my_index false w).1 =
  outcome_map hit_ids
    (execute (Some file, Some artifact) schema my_index true w).1.
Proof. by rewrite !parse_execute_hit_ids, query_text_not_escaped. Qed.

(** X15.  A key component that is [None] (from a row too short to hold it)
    is searched as the word [None]: the messages found are those found for
    the key whose components are the string [None]. *)
Theorem parse_execute_missing_component (artifact : Key) (schema : Schema)
    (my_index : string) (include_filepath : bool) (w : World) :
  outcome_map hit_ids (execute artifact schema my_index include_filepath w).1 =
  outcome_map hit_ids
    (execute (Some (Py.str_of artifact.1), Some (Py.str_of artifact.2))
             schema my_index include_filepath w).1 ∧
  Py.str_of None = "None".
Proof. split; [|done]. by rewrite !parse_execute_hit_ids. Qed.

Lemma parse_execute_three_columns (artifact : Key) (schema : Schema) (my_index : string)
    (include_filepath : bool) (w w' : World) (lines : list Line) :
  execute artifact schema my_index include_filepath w = (Ok lines, w') →
  Forall (λ line : Line, length line = 3%nat) lines.
Proof.
  unfold __parse_execute, index_searcher, gets, raise, mbind, M_bind, mret, M_ret.
  destruct (dirs w !! my_index) as [[data|]|]; simpl; [|discriminate..].
  intros [= <- _]. apply Forall_fmap, Forall_true. done.
Qed.

Lemma parse_search_three_columns (mbox_name results_folder : string)
    (include_filepath files_as_artifacts reindex : bool) (w w' : World)
    (csv_data : list (list Line)) :
  search_phase mbox_name results_folder include_filepath files_as_artifacts reindex w
    = (Ok csv_data, w') →
  Forall (λ line : Line, length line = 3%nat) (concat csv_data).
Proof.
  rewrite parse_search_setup.
  destruct (parse_setup _ _ _ _ w) as [[[ix artifacts]|e] w2]; [|discriminate].
  rewrite joblib_Parallel_run. destruct (_ =? 0); [discriminate|].
  destruct (run_tasks _ _ _) as [[lines|e] w3] eqn:Hrun; [|discriminate].
  intros [= <- _]. apply Forall_concat.
  eapply run_tasks_Forall; [|exact Hrun].
  intros commit w0 lines' w4. apply parse_execute_three_columns.
Qed.

Lemma parse_files_frame (mbox_name results_folder : string)
    (include_filepath files_as_artifacts reindex append_result : bool) (w : World) :
  let run := parse_with mbox_name results_folder include_filepath files_as_artifacts
                        reindex append_result w in
  let output_file :=
    OsPath.join results_folder [output_filename files_as_artifacts include_filepath] in
  let index_path := index_path_of results_folder mbox_name in
  (∀ p, p ≠ output_file → ¬ in_tree index_path p → files run.2 !! p = files w !! p) ∧
  (∀ e, run.1 = Raise e → files run.2 !! output_file = files w !! output_file) ∧
  (∀ p, p ≠ mbox_name → ¬ in_tree index_path p → mboxes run.2 !! p = mboxes w !! p) ∧
  (¬ in_tree index_path mbox_name →
   mboxes run.2 !! mbox_name = Some (default [] (mboxes w !! mbox_name))).
Proof.
  intros run output_file index_path. subst run. rewrite parse_run. fold output_file.
  pose proof (keeps_outside_parse_search Query query_parser_parse searcher_search mbox_name
                results_folder include_filepath files_as_artifacts reindex w)
    as (Hfiles & Hmboxes & _).
  fold index_path in Hfiles, Hmboxes.
  assert (¬ in_tree index_path mbox_name →
          mboxes (search_phase mbox_name results_folder include_filepath files_as_artifacts
                    reindex w).2 !! mbox_name
          = Some (default [] (mboxes w !! mbox_name))) as Hown.
  { intros Hout. unfold parse_search.
    erewrite M_bind_Ok by apply mailbox_mbox_run.
    rewrite <- (mboxes_mbox_opened mbox_name w).
    match goal with |- mboxes (?rest ?w1).2 !! _ = _ =>
      assert (keeps_outside (in_tree index_path) (in_tree index_path) rest) as Hrest
    end.
    { apply keeps_outside_bind; [apply keeps_outside_get_index|intros ix].
      apply keeps_outside_of_keeps.
      apply keeps_bind; [apply keeps_get_artifacts|intros artifacts].
      apply keeps_bind; [apply keeps_gets|intros num_cores].
      apply keeps_joblib_Parallel. intros commit. apply keeps_parse_execute. }
    destruct (Hrest (mbox_opened mbox_name w)) as (_ & Hkeeps & _). by apply Hkeeps. }
  pose proof (output_file_outside_index results_folder mbox_name files_as_artifacts
                include_filepath) as Houtput.
  fold output_file index_path in Houtput.
  destruct (search_phase _ _ _ _ _ w) as [[csv_data|e] w1]; simpl in *.
  - split; [|split; [discriminate|split]].
    + intros p Hp Hout. by rewrite lookup_insert_ne, Hfiles.
    + intros p Hp Hout. apply Hmboxes. by intros [?|?].
    + done.
  - split; [|split; [|split]].
    + intros p _ Hout. by apply Hfiles.
    + intros _ _. by apply Hfiles.
    + intros p Hp Hout. apply Hmboxes. by intros [?|?].
    + done.
Qed.


(** X17.  Every row of the table a run of [parse] creates has three fields
    and its first row is the header; a run that appends keeps a table of
    three-field rows one. *)
Theorem parse_rows_three_fields (mbox_name results_folder : string)
    (include_filepath files_as_artifacts reindex append_result : bool) (w w' : World) :
  let output_file :=
    OsPath.join results_folder [output_filename files_as_artifacts include_filepath] in
  parse_with mbox_name results_folder include_filepath files_as_artifacts reindex
             append_result w = (Ok (), w') →
  (append_result = true →
   ∀ before, files w !! output_file = Some before → Forall three_fields before) →
  ∃ table,
    files w' !! output_file = Some table ∧
    Forall three_fields table ∧
    (append_result = false → head table = Some ["file"; "artifact"; "messageID"]).
Proof.
  intros output_file Hrun Hbefore. rewrite parse_run in Hrun. fold output_file in Hrun.
  pose proof (parse_search_output_file Query query_parser_parse searcher_search mbox_name
                results_folder include_filepath files_as_artifacts reindex
                files_as_artifacts include_filepath w)
    as [Hfiles _].
  fold output_file in Hfiles.
  destruct (search_phase _ _ _ _ _ w) as [[csv_data|e] w1] eqn:Hsearch; [|discriminate Hrun].
  apply parse_search_three_columns in Hsearch. cbn [snd] in Hfiles.
  unfold write_to_csv, modify in Hrun. injection Hrun as <-.
  eexists. split; [rewrite files_record_event, files_set_files; apply lookup_insert_eq|].
  assert (Forall three_fields (writerow <$> concat csv_data)) as Hdata.
  { apply Forall_fmap. eapply Forall_impl; [exact Hsearch|].
    intros line Hline. unfold three_fields, writerow. simpl. by rewrite length_fmap. }
  destruct append_result; simpl.
  - split; [|discriminate]. apply Forall_app. split; [|done].
    rewrite Hfiles. destruct (files w !! output_file) as [before|] eqn:Hold; simpl.
    + by apply Hbefore.
    + constructor.
  - split; [|done]. by constructor.
Qed.

End Search.

(** The two sample runs: the table after the second. *)
Lemma parse_rows_three_fields_witness :
  ∃ table,
    files after_second_run !! OsPath.join "res" [output_filename false false] = Some table ∧
    Forall three_fields table ∧
    (true = false → head table = Some ["file"; "artifact"; "messageID"]).
Proof.
  apply (parse_rows_three_fields string (λ _ text, text) sample_search
           "lists/dev.mbox" "res" false false false true after_first_run after_second_run).
  - vm_compute. reflexivity.
  - intros _ before Hbefore. vm_compute in Hbefore. injection Hbefore as <-.
    repeat constructor.
Defined.

(** An archive that is missing is made, empty, and the run goes on to
    write a table that holds the header only. *)
Example parse_missing_archive :
  let run := sample_parse "lists/new.mbox" "res" false false false false sample_world in
  mboxes sample_world !! "lists/new.mbox" = None ∧
  run.1 = Ok () ∧
  mboxes run.2 !! "lists/new.mbox" = Some [] ∧
  files run.2 !! "res/mboxparsing.list" = Some [["file"; "artifact"; "messageID"]].
Proof. vm_compute. repeat split; reflexivity. Qed.

Lemma output_filename_relative (files_as_artifacts include_filepath : bool) :
  Py.startswith (output_filename files_as_artifacts include_filepath) "/" = false.
Proof. by destruct files_as_artifacts, include_filepath. Qed.

Lemma output_filename_inj (a b a' b' : bool) :
  output_filename a b = output_filename a' b' → (a, b) = (a', b').
Proof. destruct a, b, a', b'; intros H; vm_compute in H; by try discriminate H. Qed.

Lemma output_filename_not_commits (a b : bool) :
  output_filename a b ≠ "commits.list".
Proof. destruct a, b; intros H; vm_compute in H; discriminate H. Qed.

Section Orchestration.

Variable Query : Type.
Variable query_parser_parse : Schema → string → Query.
Variable searcher_search : list Document → Query → list Document.

Abbreviation search_of := (parse_search Query query_parser_parse searcher_search).
Abbreviation parse_of := (parse Query query_parser_parse searcher_search).
Abbreviation run_of := (run Query query_parser_parse searcher_search).
Abbreviation loop_of := (run_loop Query query_parser_parse searcher_search).
Abbreviation round_of := (run_mailinglist Query query_parser_parse searcher_search).

(** X18.  The four combinations of the two modes write four different
    files: a run of [parse] leaves the tables of the other three
    combinations, and the commit table, as they were. *)
Theorem parse_other_tables (mbox_name results_folder : string)
    (include_filepath files_as_artifacts reindex append_result : bool)
    (files_as_artifacts' include_filepath' : bool) (w : World) :
  (files_as_artifacts', include_filepath') ≠ (files_as_artifacts, include_filepath) →
  let w' := (parse_of mbox_name results_folder include_filepath files_as_artifacts
                      reindex append_result w).2 in
  files w' !! OsPath.join results_folder
                [output_filename files_as_artifacts' include_filepath']
    = files w !! OsPath.join results_folder
                   [output_filename files_as_artifacts' include_filepath'] ∧
  files w' !! OsPath.join results_folder ["commits.list"]
    = files w !! OsPath.join results_folder ["commits.list"].
Proof.
  intros Hmodes w'. subst w'.
  destruct (parse_files_frame Query query_parser_parse searcher_search mbox_name
              results_folder include_filepath files_as_artifacts reindex append_result w)
    as (Hframe & _ & _).
  split; apply Hframe.
  - intros Heq. apply join_single_inj in Heq; [|apply output_filename_relative..].
    by apply output_filename_inj in Heq.
  - apply output_file_outside_index.
  - intros Heq. apply join_single_inj in Heq; [|done|apply output_filename_relative].
    by eapply output_filename_not_commits.
  - apply commit_table_outside_index.
Qed.


Lemma run_loop_app (resdir_project maildir : string) (filepath file reindex : bool)
    (first : gmap string string) (mls1 mls2 : list (gmap string string)) (w : World) :
  loop_of resdir_project maildir filepath file reindex first (mls1 ++ mls2) w =
  match loop_of resdir_project maildir filepath file reindex first mls1 w with
  | (Ok _, w1) => loop_of resdir_project maildir filepath file reindex first mls2 w1
  | (Raise e, w1) => (Raise e, w1)
  end.
Proof.
  revert w. induction mls1 as [|ml mls1 IH]; intros w; [done|].
  simpl. unfold mbind, M_bind.
  destruct (round_of _ _ _ _ _ first ml w) as [[[]|e] w1]; [|done]. apply IH.
Qed.

(** X20.  A mailing list is appended to the table unless its entry equals
    the first entry of the configuration.  When the configuration ends with
    an entry equal to its first, the run of that last entry starts the table
    anew: after a run that returns, the table holds the header and the rows
    found for the last list only, whatever the lists before it gave. *)
Theorem run_repeated_first_restarts (resdir_project maildir name : string)
    (filepath file reindex : bool) (first : gmap string string)
    (middle : list (gmap string string)) (w w' : World) :
  first !! "name" = Some name →
  run_of resdir_project maildir filepath file reindex (first :: middle ++ [first]) w
    = (Ok (), w') →
  ∃ w0 rows,
    run_of resdir_project maildir filepath file reindex (first :: middle) w = (Ok (), w0) ∧
    (search_of (OsPath.join maildir [name +:+ ".mbox"]) resdir_project
               filepath file reindex w0).1 = Ok rows ∧
    files w' !! OsPath.join resdir_project [output_filename file filepath]
      = Some (writerow <$> header :: concat rows).
Proof.
  intros Hname. unfold run.
  change (first :: middle ++ [first]) with ((first :: middle) ++ [first]).
  rewrite run_loop_app.
  destruct (loop_of _ _ _ _ _ first (first :: middle) w) as [[[]|e] w0]; [|discriminate].
  cbn [run_loop]. unfold mbind, M_bind, run_mailinglist. rewrite Hname.
  rewrite bool_decide_eq_false_2 by (by intros H; apply H).
  rewrite parse_run.
  destruct (search_of _ _ _ _ _ w0) as [[rows|e] w1] eqn:Hsearch; [|discriminate].
  unfold write_to_csv, modify. intros [= <-].
  exists w0, rows. split; [done|]. split; [by rewrite Hsearch|]. simpl.
  apply lookup_insert_eq.
Qed.

Lemma parse_append_grows (mbox_name results_folder : string)
    (include_filepath files_as_artifacts reindex : bool) (w w' : World)
    (table : list (list string)) :
  parse_of mbox_name results_folder include_filepath files_as_artifacts reindex true w
    = (Ok (), w') →
  files w !! OsPath.join results_folder [output_filename files_as_artifacts include_filepath]
    = Some table →
  ∃ more,
    files w' !! OsPath.join results_folder
                  [output_filename files_as_artifacts include_filepath]
      = Some (table ++ more).
Proof.
  intros Hrun Htable. rewrite parse_run in Hrun.
  pose proof (parse_search_output_file Query query_parser_parse searcher_search mbox_name
                results_folder include_filepath files_as_artifacts reindex
                files_as_artifacts include_filepath w)
    as [Hfiles _].
  destruct (search_of _ _ _ _ _ w) as [[rows|e] w1]; [|discriminate Hrun].
  cbn [snd] in Hfiles. unfold write_to_csv, modify in Hrun. injection Hrun as <-.
  eexists. rewrite files_record_event, files_set_files, lookup_insert_eq.
  change (OsPath.join2 results_folder (output_filename files_as_artifacts include_filepath))
    with (OsPath.join results_folder [output_filename files_as_artifacts include_filepath]).
  rewrite Hfiles, Htable. reflexivity.
Qed.

Lemma run_loop_appends (resdir_project maildir : string) (filepath file reindex : bool)
    (first : gmap string string) (mls : list (gmap string string)) (w w' : World)
    (table : list (list string)) :
  Forall (λ ml, ml ≠ first) mls →
  loop_of resdir_project maildir filepath file reindex first mls w = (Ok (), w') →
  files w !! OsPath.join resdir_project [output_filename file filepath] = Some table →
  ∃ more,
    files w' !! OsPath.join resdir_project [output_filename file filepath]
      = Some (table ++ more).
Proof.
  intros Hmls. revert w table. induction Hmls as [|ml mls Hml _ IH]; intros w table.
  - intros [= <-] Htable. exists []. by rewrite app_nil_r.
  - cbn [run_loop]. unfold mbind, M_bind.
    destruct (round_of _ _ _ _ _ first ml w) as [[[]|e] w1] eqn:Hround; [|discriminate].
    intros Hloop Htable. unfold run_mailinglist in Hround.
    destruct (ml !! "name") as [name|]; [|discriminate Hround].
    rewrite bool_decide_eq_true_2 in Hround by done.
    destruct (parse_append_grows _ _ _ _ _ _ _ _ Hround Htable) as [more1 Htable1].
    destruct (IH _ _ Hloop Htable1) as [more2 Htable2].
    exists (more1 ++ more2). by rewrite app_assoc.
Qed.

(** X21.  When no later entry of the configuration equals the first one,
    the lists after the first only append: the table the first list gave,
    header included, is the beginning of the final table. *)
Theorem run_later_lists_append (resdir_project maildir name : string)
    (filepath file reindex : bool) (first : gmap string string)
    (rest : list (gmap string string)) (w w' : World) :
  first !! "name" = Some name →
  Forall (λ ml, ml ≠ first) rest →
  run_of resdir_project maildir filepath file reindex (first :: rest) w = (Ok (), w') →
  ∃ w1 rows more,
    parse_of (OsPath.join maildir [name +:+ ".mbox"]) resdir_project filepath file
             reindex false w = (Ok (), w1) ∧
    files w1 !! OsPath.join resdir_project [output_filename file filepath]
      = Some (writerow <$> header :: concat rows) ∧
    files w' !! OsPath.join resdir_project [output_filename file filepath]
      = Some ((writerow <$> header :: concat rows) ++ more).
Proof.
  intros Hname Hrest. unfold run. cbn [run_loop]. unfold mbind, M_bind.
  unfold run_mailinglist at 1. rewrite Hname.
  rewrite bool_decide_eq_false_2 by (by intros H; apply H).
  destruct (parse_of _ _ _ _ _ false w) as [[[]|e] w1] eqn:Hfirst; [|discriminate].
  intros Hloop.
  assert (∃ rows, files w1 !! OsPath.join resdir_project [output_filename file filepath]
                  = Some (writerow <$> header :: concat rows)) as [rows Htable].
  { rewrite parse_run in Hfirst.
    destruct (search_of _ _ _ _ _ w) as [[rows|e] w0]; [|discriminate Hfirst].
    unfold write_to_csv, modify in Hfirst. injection Hfirst as <-.
    exists rows. simpl. apply lookup_insert_eq. }
  destruct (run_loop_appends _ _ _ _ _ _ _ _ _ _ Hrest Hloop Htable) as [more Hmore].
  by exists w1, rows, more.
Qed.

End Orchestration.

(** A run without file path and artifacts leaves the table of the
    files-as-artifacts mode alone. *)
Lemma parse_other_tables_witness :
  let w' := (sample_parse "lists/dev.mbox" "res" false false false false sample_world).2 in
  files w' !! OsPath.join "res" [output_filename true false]
    = files sample_world !! OsPath.join "res" [output_filename true false] ∧
  files w' !! OsPath.join "res" ["commits.list"]
    = files sample_world !! OsPath.join "res" ["commits.list"].
Proof.
  apply (parse_other_tables string (λ _ text, text) sample_search
           "lists/dev.mbox" "res" false false false false true false sample_world).
  intros H. discriminate H.
Defined.


(** A configuration that names the list [dev], the list [user] and the
    list [dev] again. *)
Lemma run_repeated_first_restarts_witness :
  ∃ w0 rows,
    sample_run [list_dev; list_user] two_lists_world = (Ok (), w0) ∧
    (parse_search string (λ _ text, text) sample_search
       (OsPath.join "lists" ["dev" +:+ ".mbox"]) "res" false false false w0).1 = Ok rows ∧
    files (sample_run [list_dev; list_user; list_dev] two_lists_world).2
      !! OsPath.join "res" [output_filename false false]
      = Some (writerow <$> header :: concat rows).
Proof.
  apply (run_repeated_first_restarts string (λ _ text, text) sample_search
           "res" "lists" "dev" false false false list_dev [list_user] two_lists_world
           (sample_run [list_dev; list_user; list_dev] two_lists_world).2).
  - reflexivity.
  - vm_compute. reflexivity.
Defined.

(** A configuration with the lists [dev] and [user]. *)
Lemma run_later_lists_append_witness :
  ∃ w1 rows more,
    sample_parse (OsPath.join "lists" ["dev" +:+ ".mbox"]) "res" false false false false
                 two_lists_world = (Ok (), w1) ∧
    files w1 !! OsPath.join "res" [output_filename false false]
      = Some (writerow <$> header :: concat rows) ∧
    files (sample_run [list_dev; list_user] two_lists_world).2
      !! OsPath.join "res" [output_filename false false]
      = Some ((writerow <$> header :: concat rows) ++ more).
Proof.
  apply (run_later_lists_append string (λ _ text, text) sample_search
           "res" "lists" "dev" false false false list_dev [list_user] two_lists_world
           (sample_run [list_dev; list_user] two_lists_world).2).
  - reflexivity.
  - apply Forall_cons_2; [|apply Forall_nil_2].
    intros H. apply (f_equal (lookup "name")) in H. vm_compute in H. discriminate H.
  - vm_compute. reflexivity.
Defined.

(** X22.  Writing lines and then appending more to the same file gives the
    file that writing all the lines at once gives; writing without
    [append] forgets what the file held; no other file is changed. *)
Theorem write_to_csv_composes (file_path : string) (lines1 lines2 : list Line)
    (append : bool) (w : World) :
  let once := (write_to_csv file_path (lines1 ++ lines2) append w).2 in
  let twice :=
    (write_to_csv file_path lines2 true (write_to_csv file_path lines1 append w).2).2 in
  let again :=
    (write_to_csv file_path lines2 false (write_to_csv file_path lines1 append w).2).2 in
  files twice = files once ∧
  files again !! file_path = Some (writerow <$> lines2) ∧
  ∀ p, p ≠ file_path → files twice !! p = files w !! p ∧ files again !! p = files w !! p.
Proof.
  intros once twice again. subst once twice again.
  unfold write_to_csv, modify. cbn [snd]. cbv zeta.
  repeat rewrite ?files_record_event, ?files_set_files, ?lookup_insert_eq.
  split; [|split].
  - rewrite insert_insert_eq. cbn [default].
    by rewrite fmap_app, app_assoc.
  - reflexivity.
  - intros p Hp. by rewrite !lookup_insert_ne.
Qed.

(** ** Range paths *)

Lemma len_slice_to (n : nat) (s : string) :
  (Util.len (Util.slice_to n s) ≤ n)%nat.
Proof.
  revert n. induction s as [|c s IH]; intros n; simpl; [lia|].
  destruct (Util.is_continuation c) eqn:Hc; simpl.
  - rewrite Hc. apply IH.
  - destruct n as [|n]; simpl; [lia|]. rewrite Hc. specialize (IH n). lia.
Qed.

(** X23.  When the start revision has 40 characters, [gen_range_path] keeps
    the first six characters of both revisions only: two ranges whose
    revisions agree on these characters get the same path.  The length of
    the end revision plays no part in the decision. *)
Theorem gen_range_path_abbreviates (base_path : string) (i : Z)
    (start_rev end_rev start_rev' end_rev' : string) :
  Util.len start_rev = 40%nat → Util.len start_rev' = 40%nat →
  Util.slice_to 6 start_rev = Util.slice_to 6 start_rev' →
  Util.slice_to 6 end_rev = Util.slice_to 6 end_rev' →
  Util.gen_range_path base_path i start_rev end_rev =
  Util.gen_range_path base_path i start_rev' end_rev' ∧
  (Util.len (Util.slice_to 6 start_rev) ≤ 6)%nat ∧
  (Util.len (Util.slice_to 6 end_rev) ≤ 6)%nat.
Proof.
  intros Hlen Hlen' Hstart Hend. unfold Util.gen_range_path.
  rewrite !decide_True by done. simpl. rewrite Hstart, Hend.
  split; [done|]. rewrite <- Hstart, <- Hend. split; apply len_slice_to.
Qed.

(** Two ranges between different commits with the same abbreviations. *)
Lemma gen_range_path_abbreviates_witness :
  Util.gen_range_path "res/ranges" 7 sha_a sha_c =
  Util.gen_range_path "res/ranges" 7 sha_b sha_d ∧
  (Util.len (Util.slice_to 6 sha_a) ≤ 6)%nat ∧
  (Util.len (Util.slice_to 6 sha_c) ≤ 6)%nat.
Proof.
  apply (gen_range_path_abbreviates "res/ranges" 7 sha_a sha_c sha_b sha_d); reflexivity.
Defined.

Lemma index_fields_shaped : forallb Util.index_field_shaped (seq 0 1000) = true.
Proof. vm_compute. reflexivity. Qed.

Lemma index_fields_ordered : forallb Util.index_field_before_next (seq 0 999) = true.
Proof. vm_compute. reflexivity. Qed.

Lemma index_field_shape (k : nat) :
  (k < 1000)%nat →
  String.length (Util.index_field k) = 3%nat ∧
  Py.startswith (Util.index_field k) "/" = false.
Proof.
  intros Hk.
  assert (Util.index_field_shaped k = true) as H.
  { apply (proj1 (forallb_forall _ _) index_fields_shaped). apply in_seq. lia. }
  apply andb_true_iff in H as [H1 H2].
  split; [by apply Nat.eqb_eq|by apply negb_true_iff].
Qed.

Lemma compare_lt_trans (a b c : string) :
  String.compare a b = Lt → String.compare b c = Lt → String.compare a c = Lt.
Proof.
  intros Hab Hbc.
  assert (String.le a c) as Hac.
  { transitivity b; unfold String.le, String.leb; by rewrite ?Hab, ?Hbc. }
  unfold String.le, String.leb in Hac.
  destruct (String.compare a c) eqn:Hcmp; [|done|done].
  apply String.compare_eq_iff in Hcmp as ->.
  rewrite String.compare_antisym, Hbc in Hab. discriminate Hab.
Qed.

Lemma index_field_next (k : nat) :
  (S k < 1000)%nat →
  String.compare (Util.index_field k) (Util.index_field (S k)) = Lt.
Proof.
  intros Hk.
  assert (Util.index_field_before_next k = true) as H.
  { apply (proj1 (forallb_forall _ _) index_fields_ordered). apply in_seq. lia. }
  unfold Util.index_field_before_next in H. by destruct (String.compare _ _).
Qed.

Lemma index_field_lt (i j : nat) :
  (i < j)%nat → (j < 1000)%nat →
  String.compare (Util.index_field i) (Util.index_field j) = Lt.
Proof.
  induction j as [|j IH]; intros Hij Hj; [lia|].
  destruct (decide (i = j)) as [->|Hne]; [by apply index_field_next|].
  apply (compare_lt_trans _ (Util.index_field j)); [apply IH; lia|].
  by apply index_field_next.
Qed.

Lemma ascii_compare_refl (c : ascii) : Ascii.compare c c = Eq.
Proof. unfold Ascii.compare. apply N.compare_refl. Qed.

Lemma compare_app_prefix (p a b : string) :
  String.compare (p +:+ a) (p +:+ b) = String.compare a b.
Proof.
  induction p as [|c p IH]; [done|].
  change (String.compare (String c (p +:+ a)) (String c (p +:+ b)) = String.compare a b).
  simpl. by rewrite ascii_compare_refl.
Qed.

Lemma compare_app_lt (a b x y : string) :
  String.length a = String.length b →
  String.compare a b = Lt →
  String.compare (a +:+ x) (b +:+ y) = Lt.
Proof.
  revert b. induction a as [|c a IH]; intros [|d b]; simpl; try discriminate.
  intros [= Hlen].
  change (String c a +:+ x) with (String c (a +:+ x)).
  change (String d b +:+ y) with (String d (b +:+ y)). simpl.
  destruct (Ascii.compare c d); [by apply IH|done|done].
Qed.

Lemma startswith_app (a x : string) :
  a ≠ EmptyString → Py.startswith (a +:+ x) "/" = Py.startswith a "/".
Proof.
  intros Hne. destruct a as [|c a]; [done|].
  change (String c a +:+ x) with (String c (a +:+ x)). simpl.
  destruct (decide _); [|done].
  assert (∀ s, Py.startswith s "" = true) as Hempty by (by intros []).
  by rewrite !Hempty.
Qed.

(** X24.  The index is filled with zeros to three digits, so that for
    indices from 0 to 999 the paths of one base folder sort, as strings, in
    the order of the indices, whatever the revisions are. *)
Theorem gen_range_path_sorted (base_path : string) (i j : Z)
    (start_rev end_rev start_rev' end_rev' : string) :
  0 ≤ i → i < j → j < 1000 →
  String.compare (Util.gen_range_path base_path i start_rev end_rev)
                 (Util.gen_range_path base_path j start_rev' end_rev') = Lt.
Proof.
  intros Hi Hij Hj. unfold Util.gen_range_path.
  generalize (if decide (Util.len start_rev = 40%nat)
              then (Util.slice_to 6 start_rev, Util.slice_to 6 end_rev)
              else (start_rev, end_rev)).
  generalize (if decide (Util.len start_rev' = 40%nat)
              then (Util.slice_to 6 start_rev', Util.slice_to 6 end_rev')
              else (start_rev', end_rev')).
  intros revs' revs.
  replace i with (Z.of_nat (Z.to_nat i)) by lia.
  replace j with (Z.of_nat (Z.to_nat j)) by lia.
  fold (Util.index_field (Z.to_nat i)). fold (Util.index_field (Z.to_nat j)).
  destruct (index_field_shape (Z.to_nat i)) as [Hleni Hsepi]; [lia|].
  destruct (index_field_shape (Z.to_nat j)) as [Hlenj Hsepj]; [lia|].
  assert (String.compare (Util.index_field (Z.to_nat i)) (Util.index_field (Z.to_nat j)) = Lt)
    as Hlt by (apply index_field_lt; lia).
  assert (∀ a x, String.length a = 3%nat → Py.startswith a "/" = false →
                 OsPath.join base_path [a +:+ x] =
                 (if bool_decide (base_path = EmptyString) || Py.ends_with_sep base_path
                  then base_path else base_path +:+ "/") +:+ a +:+ x) as Hjoin.
  { intros a x Hlen Hsep. unfold OsPath.join. simpl. unfold OsPath.join2.
    rewrite startswith_app, Hsep by (by destruct a).
    destruct (_ || _); [done|]. by rewrite string_app_assoc. }
  rewrite !Hjoin by done. rewrite compare_app_prefix.
  apply compare_app_lt; [congruence|done].
Qed.

(** The ranges 7 and 12. *)
Lemma gen_range_path_sorted_witness :
  String.compare (Util.gen_range_path "res/ranges" 7 sha_a sha_c)
                 (Util.gen_range_path "res/ranges" 12 "v1.0" "v1.1") = Lt.
Proof.
  apply (gen_range_path_sorted "res/ranges" 7 12 sha_a sha_c "v1.0" "v1.1"); lia.
Defined.
